(** * NYU-VP dataset reader ([src/nyu.py]): a shallow embedding

    The class [NYUVP] of [src/nyu.py] gives indexed, lazily cached access to
    the 1449 scenes of the NYU-VP data set.  This file embeds its
    constructor, [__len__] and [__getitem__] and proves the properties that
    the specification states about them.

    Conventions of the embedding.
    - A Python [float] (and a numpy [float64] cell) is a real number:
      arithmetic is exact, there is no rounding, and the non-finite values
      [inf] and [nan] are not values of the model (a field that [float()]
      would turn into one stops the run with the marker [NonFinite]).
    - A text file is the list of rows that [csv.reader] with [delimiter=" "]
      yields for it, each row a list of fields.
    - Python objects that are shared by reference (the assembled record) live
      in a heap and are named by their address; raising an exception is
      returning [Raise e]. *)

From Stdlib Require Import Reals Lra Lia ZArith List String Ascii Sorted.
From stdpp Require Import base option list strings gmap.

Local Open Scope Z_scope.

(* ------------------------------------------------------------------------- *)
(** ** Python run-time: exceptions, list indexing, [float()] *)
(* ------------------------------------------------------------------------- *)

Module Py.

(** The exceptions the reader can raise.  [NonFinite] is not a Python
    exception: it marks a run in which [float()] returned [inf] or [nan],
    which the real-number model cannot follow. *)
Inductive exn : Type :=
  | IndexError
  | KeyError (key : string)
  | TypeError
  | ValueError (msg : string)
  | AssertionError (msg : string)
  | FileNotFoundError (path : string)
  | NonFinite (text : string).

Inductive result (A : Type) : Type :=
  | Ok (a : A)
  | Raise (e : exn).
Arguments Ok {A} a.
Arguments Raise {A} e.

Definition bind {A B} (m : result A) (k : A -> result B) : result B :=
  match m with
  | Ok a => k a
  | Raise e => Raise e
  end.

Definition is_ok {A} (m : result A) : bool :=
  match m with Ok _ => true | Raise _ => false end.

(** [l[k]] for a Python list: a negative [k] counts from the end, anything
    outside [-len(l) <= k < len(l)] raises [IndexError]. *)
Definition norm_index (n : nat) (k : Z) : option nat :=
  if (0 <=? k) && (k <? Z.of_nat n) then Some (Z.to_nat k)
  else if (- Z.of_nat n <=? k) && (k <? 0) then Some (Z.to_nat (Z.of_nat n + k))
  else None.

Definition getitem {A} (l : list A) (k : Z) : result A :=
  match norm_index (length l) k with
  | Some i => match l !! i with Some a => Ok a | None => Raise IndexError end
  | None => Raise IndexError
  end.

(** [l[k] = v] for a Python list. *)
Definition setitem {A} (l : list A) (k : Z) (v : A) : result (list A) :=
  match norm_index (length l) k with
  | Some i => Ok (<[i := v]> l)
  | None => Raise IndexError
  end.

(** [range(lo, hi)] as a list. *)
Definition range (lo hi : Z) : list Z :=
  map (fun i => lo + Z.of_nat i) (seq 0 (Z.to_nat (hi - lo))).

(** *** [float(text)]

    The grammar is Python's: surrounding white space is dropped, then an
    optional sign, then either one of the words [inf], [infinity], [nan]
    (any case) or a decimal literal: digits with an optional point and an
    optional exponent, at least one digit before or after the point, single
    underscores allowed between digits.  The value of a literal is exact. *)
Inductive parsed : Type :=
  | Num (r : R)
  | NotFinite
  | Bad.

Definition is_space (c : ascii) : bool :=
  let n := nat_of_ascii c in
  ((9 <=? n) && (n <=? 13) || (28 <=? n) && (n <=? 32))%nat.

Definition is_digit (c : ascii) : bool :=
  let n := nat_of_ascii c in ((48 <=? n) && (n <=? 57))%nat.

Definition digit_val (c : ascii) : Z := Z.of_nat (nat_of_ascii c) - 48.

Definition lower (c : ascii) : ascii :=
  let n := nat_of_ascii c in
  if ((65 <=? n) && (n <=? 90))%nat then ascii_of_nat (n + 32) else c.

Fixpoint lstrip (cs : list ascii) : list ascii :=
  match cs with
  | c :: rest => if is_space c then lstrip rest else cs
  | [] => []
  end.

Definition strip (cs : list ascii) : list ascii :=
  rev (lstrip (rev (lstrip cs))).

(** A run of digits: [acc] is the number read so far, [n] counts the digits
    read; an underscore is taken only between two digits. *)
Fixpoint read_digits (acc : Z) (n : nat) (cs : list ascii)
  : Z * nat * list ascii :=
  match cs with
  | c :: rest =>
      if is_digit c then read_digits (10 * acc + digit_val c) (S n) rest
      else match n, rest with
           | S _, d :: rest' =>
               if Ascii.eqb c "_" && is_digit d
               then read_digits (10 * acc + digit_val d) (S n) rest'
               else (acc, n, cs)
           | _, _ => (acc, n, cs)
           end
  | [] => (acc, n, cs)
  end.

Definition read_sign (cs : list ascii) : bool * list ascii :=
  match cs with
  | c :: rest =>
      if Ascii.eqb c "-" then (true, rest)
      else if Ascii.eqb c "+" then (false, rest)
      else (false, cs)
  | [] => (false, cs)
  end.

(** The exponent part, [None] when it is malformed. *)
Definition read_exponent (cs : list ascii) : option Z :=
  match cs with
  | [] => Some 0
  | c :: rest =>
      if Ascii.eqb (lower c) "e" then
        let '(neg, rest1) := read_sign rest in
        match read_digits 0 0 rest1 with
        | (e, S _, []) => Some (if neg then - e else e)
        | _ => None
        end
      else None
  end.

(** A decimal literal as mantissa and power of ten. *)
Definition read_decimal (cs : list ascii) : option (Z * Z) :=
  let '(ip, ni, rest) := read_digits 0 0 cs in
  let '(m, nf, rest1) :=
    match rest with
    | c :: rest' =>
        if Ascii.eqb c "." then read_digits ip 0 rest' else (ip, O, rest)
    | [] => (ip, O, rest)
    end in
  match (ni + nf)%nat with
  | O => None
  | S _ => e ← read_exponent rest1; Some (m, e - Z.of_nat nf)
  end.

Definition is_word (w : string) (cs : list ascii) : bool :=
  bool_decide (map lower cs = list_ascii_of_string w).

(** The shape of a text: a decimal literal (sign, mantissa, power of ten),
    one of the non-finite words, or neither. *)
Inductive literal : Type :=
  | Decimal (neg : bool) (m e : Z)
  | Word
  | Malformed.

Definition read_literal (text : string) : literal :=
  let '(neg, body) := read_sign (strip (list_ascii_of_string text)) in
  if is_word "inf" body || is_word "infinity" body || is_word "nan" body
  then Word
  else match read_decimal body with
       | Some (m, e) => Decimal neg m e
       | None => Malformed
       end.

Definition float (text : string) : parsed :=
  match read_literal text with
  | Decimal neg m e =>
      let v := (IZR m * powerRZ 10 e)%R in
      Num (if neg then (- v)%R else v)
  | Word => NotFinite
  | Malformed => Bad
  end.

(** [repr(text)] for a text without quotes or escapes, and the message of
    the [ValueError] that [float] raises. *)
Definition repr (text : string) : string := "'" +:+ text +:+ "'".

Definition float_error (text : string) : string :=
  "could not convert string to float: " +:+ repr text.

(** [needle in hay] for two texts. *)
Fixpoint contains (needle hay : string) : bool :=
  if String.prefix needle hay then true
  else match hay with
       | EmptyString => false
       | String _ rest => contains needle rest
       end.

(** [str(e)]: the text an exception carries. *)
Definition message (e : exn) : string :=
  match e with
  | IndexError => "list index out of range"
  | KeyError key => repr key
  | TypeError =>
      "float() argument must be a string or a real number, not 'NoneType'"
  | ValueError msg => msg
  | AssertionError msg => msg
  | FileNotFoundError path => "[Errno 2] No such file or directory: " +:+ repr path
  | NonFinite text => text
  end.

(** [float(v)] where [v] is a [str] or [None]. *)
Definition to_float (v : option string) : result R :=
  match v with
  | None => Raise TypeError
  | Some text =>
      match float text with
      | Num r => Ok r
      | NotFinite => Raise (NonFinite text)
      | Bad => Raise (ValueError (float_error text))
      end
  end.

End Py.

(** [x ← m; k] is stdpp's notation for [bind m (fun x => k)]. *)
#[export] Instance result_bind : MBind Py.result := fun A B k m => Py.bind m k.
#[export] Instance result_ret : MRet Py.result := fun A a => Py.Ok a.

(* ------------------------------------------------------------------------- *)
(** ** numpy: 3-vectors, 3x3 matrices, norm, inverse, stacking *)
(* ------------------------------------------------------------------------- *)

Module Np.
Local Open Scope R_scope.

(** A length-3 array and a 3x3 matrix (three rows). *)
Definition vec3 : Type := R * R * R.
Definition mat3 : Type := vec3 * vec3 * vec3.

(** A labelled segment, [np.array([p1x, p1y, p2x, p2y])]. *)
Definition vec4 : Type := R * R * R * R.

Definition dot (u v : vec3) : R :=
  let '(a, b, c) := u in let '(x, y, z) := v in a * x + b * y + c * z.

(** [np.linalg.norm] on a length-3 array (and the Frobenius norm of a 3x1
    array, which is the same number). *)
Definition norm (v : vec3) : R := sqrt (dot v v).

(** [v /= s] *)
Definition idiv (v : vec3) (s : R) : vec3 :=
  let '(x, y, z) := v in (x / s, y / s, z / s).

(** [M @ v.T], the 3x1 product, kept as a 3-vector. *)
Definition matvec (M : mat3) (v : vec3) : vec3 :=
  let '(r1, r2, r3) := M in (dot r1 v, dot r2 v, dot r3 v).

Definition col (M : mat3) (j : nat) : vec3 :=
  let '((a, b, c), (d, e, f), (g, h, i)) := M in
  match j with
  | O => (a, d, g)
  | S O => (b, e, h)
  | _ => (c, f, i)
  end.

Definition matmul (A B : mat3) : mat3 :=
  let '(r1, r2, r3) := A in
  let row r := (dot r (col B 0), dot r (col B 1), dot r (col B 2)) in
  (row r1, row r2, row r3).

Definition eye : mat3 := ((1, 0, 0), (0, 1, 0), (0, 0, 1)).

Definition det (M : mat3) : R :=
  let '((a, b, c), (d, e, f), (g, h, i)) := M in
  a * (e * i - f * h) - b * (d * i - f * g) + c * (d * h - e * g).

Definition adj (M : mat3) : mat3 :=
  let '((a, b, c), (d, e, f), (g, h, i)) := M in
  ((e * i - f * h, c * h - b * i, b * f - c * e),
   (f * g - d * i, a * i - c * g, c * d - a * f),
   (d * h - e * g, b * g - a * h, a * e - b * d)).

(** [M.I] of an invertible 3x3 [np.matrix]: adjugate over determinant. *)
Definition inv (M : mat3) : mat3 :=
  let '(r1, r2, r3) := adj M in
  let dt := det M in
  (idiv r1 dt, idiv r2 dt, idiv r3 dt).

(** [np.vstack] of 3x1 columns followed by [.reshape(-1, 3)]: the columns
    are laid end to end and cut again into rows of three cells. *)
Definition column (v : vec3) : list R := let '(x, y, z) := v in [x; y; z].

Definition vstack_columns (vs : list vec3) : list R := concat (map column vs).

Fixpoint reshape3 (cells : list R) : list vec3 :=
  match cells with
  | x :: y :: z :: rest => (x, y, z) :: reshape3 rest
  | _ => []
  end.

End Np.

(* ------------------------------------------------------------------------- *)
(** ** [csv]: the reader's rows and [DictReader] *)
(* ------------------------------------------------------------------------- *)

Module Csv.

(** What [csv.reader(f, delimiter=" ")] yields for a file: its rows, each a
    list of fields (two spaces in a row, or a quoted empty field, give the
    empty field). *)
Definition table : Type := list (list string).

(** One row of a [DictReader]: field name to field, [None] being Python's
    [None] (the [restval] of a field the row is too short for). *)
Definition dict_of_row (fieldnames row : list string) : gmap string (option string) :=
  let d := foldl (fun d kv => <[kv.1 := Some kv.2]> d) ∅ (zip fieldnames row) in
  foldl (fun d k => <[k := None]> d) d (drop (length row) fieldnames).

(** [csv.DictReader]: the first row names the fields, empty rows are
    skipped.  (Fields beyond the named ones go under the key [None], which
    no text key reaches, and are left out.) *)
Definition DictReader (t : table) : list (gmap string (option string)) :=
  match t with
  | [] => []
  | fieldnames :: rows =>
      map (dict_of_row fieldnames) (filter (fun row => row ≠ []) rows)
  end.

(** [line[key]] *)
Definition getitem (line : gmap string (option string)) (key : string)
  : Py.result (option string) :=
  match line !! key with
  | Some v => Py.Ok v
  | None => Py.Raise (Py.KeyError key)
  end.

End Csv.

(* ------------------------------------------------------------------------- *)
(** ** The class [NYUVP] *)
(* ------------------------------------------------------------------------- *)

Module NYUVP.
Import Py Np.

(** An image plane (height x width x channels) and a depth plane (height x
    width) of the MAT archive. *)
Definition image_t : Type := list (list (list R)).
Definition depth_t : Type := list (list R).

(** What [scipy.io.loadmat] returns: [images] and [depths], each given as
    the list of its slices along the last axis, so that
    [data_mat["images"][:, :, :, id]] is [images[id]] and
    [data_mat["depths"][..., id]] is [depths[id]]. *)
Record Mat : Type := {
  images : list image_t;
  depths : list depth_t
}.

(** [np.expand_dims(d, axis=2)] *)
Definition expand_dims (d : depth_t) : image_t := map (map (fun x => [x])) d.

(** The dictionary that [__getitem__] returns. *)
Record Datum : Type := {
  VPs : list vec3;
  id : Z;
  VDs : list vec3;
  image : option image_t;
  labelled_lines : list (list vec4);
  depth : option image_t
}.

(** The object: its attributes as [__init__] sets them.  [dataset] holds,
    per ordinal, [None] or the address of the cached record. *)
Record obj : Type := {
  keep_in_mem : bool;
  remove_borders : bool;
  vps_files : list string;
  labelled_line_files : list string;
  set_ids : list Z;
  dataset : list (option nat);
  data_mat : option Mat;
  Kinv : mat3
}.

(** What the reader does to the outside: slicing the archive and opening
    files. *)
Inductive event : Type :=
  | LoadImage (id : Z)
  | LoadDepth (id : Z)
  | OpenFile (path : string).

#[export] Instance event_eq_dec : EqDecision event.
Proof. solve_decision. Defined.

(** A computation that may raise and that records its events, also those
    before the exception. *)
Record traced (A : Type) : Type := Traced {
  events : list event;
  outcome : result A
}.
Arguments Traced {A} events outcome.
Arguments events {A} t.
Arguments outcome {A} t.

Definition traced_then {A B} (m : traced A) (k : A -> traced B) : traced B :=
  match outcome m with
  | Ok a => Traced (events m ++ events (k a)) (outcome (k a))
  | Raise e => Traced (events m) (Raise e)
  end.

#[export] Instance traced_bind : MBind traced := fun A B k m => traced_then m k.
#[export] Instance traced_ret : MRet traced := fun A a => Traced [] (Ok a).

Definition emit (e : event) : traced unit := Traced [e] (Ok tt).
Definition lift {A} (r : result A) : traced A := Traced [] r.

(** The program state: the object, the heap of assembled records (a record's
    address is its position; the heap only grows) and the events so far. *)
Record state : Type := {
  self : obj;
  heap : list Datum;
  log : list event
}.

(** *** [__init__] *)

Definition fx_rgb : R := 5.1885790117450188e02.
Definition fy_rgb : R := 5.1946961112127485e02.
Definition cx_rgb : R := 3.2558244941119034e02.
Definition cy_rgb : R := 2.5373616633400465e02.

Definition K : mat3 := ((fx_rgb, 0, cx_rgb), (0, fy_rgb, cy_rgb), (0, 0, 1))%R.

(** [list.sort()] on paths: ascending in the order of the characters. *)
Fixpoint sort_insert (p : string) (l : list string) : list string :=
  match l with
  | [] => [p]
  | q :: rest => if String.leb p q then p :: l else q :: sort_insert p rest
  end.

Definition sort (l : list string) : list string := foldr sort_insert [] l.

(** [glob_vps] and [glob_lines] are what the two [glob.glob] calls return,
    [mat_file] what [loadmat] returns when a [mat_file_path] is given. *)
Definition __init__ (glob_vps glob_lines : list string)
    (keep_data_in_memory : bool) (mat_file : option Mat)
    (remove_borders : bool) : obj :=
  let set_ids := range 0 1449 in
  {| keep_in_mem := keep_data_in_memory;
     remove_borders := remove_borders;
     vps_files := sort glob_vps;
     labelled_line_files := sort glob_lines;
     set_ids := set_ids;
     dataset := map (fun _ => None) set_ids;
     data_mat := mat_file;
     Kinv := inv K |}.

Definition start (o : obj) : state := {| self := o; heap := []; log := [] |}.

(** *** [__len__] *)

Definition __len__ (o : obj) : Z := Z.of_nat (length (dataset o)).

(** *** [__getitem__] *)

Section Reader.

(** The files on disk: the rows of the file at a path, if there is one.
    The files do not change while the program runs. *)
Variable fs : string -> option Csv.table.

(** [open(path)] followed by the csv reader. *)
Definition open (path : string) : traced Csv.table :=
  emit (OpenFile path);;
  lift (match fs path with
        | Some t => Ok t
        | None => Raise (FileNotFoundError path)
        end).

(** ["line%d_x1" % i] and its three siblings, for a one-digit [i]. *)
Definition slot_key (i : nat) (suffix : string) : string :=
  "line" +:+ String (ascii_of_nat (48 + i)) "" +:+ suffix.

(** [np.vstack] of a Python list of arrays: the list must not be empty. *)
Definition vstack {A} (arrays : list A) : result (list A) :=
  match arrays with
  | [] => Raise (ValueError "need at least one array to concatenate")
  | _ => Ok arrays
  end.

(** The body of the loop [for i in range(1, 5)] for slot [i] of one row:
    [None] when the body leaves the loop by [break], otherwise the segment
    [ls].  [path] is [self.labelled_line_files[id]], the message of the
    assertion. *)
Definition read_slot (path : string) (line : gmap string (option string))
    (i : nat) : result (option vec4) :=
  x1 ← Csv.getitem line (slot_key i "_x1");
  if bool_decide (x1 = Some "") then Ok None
  else
    p1x ← to_float x1;
    y1 ← Csv.getitem line (slot_key i "_y1");
    p1y ← to_float y1;
    x2 ← Csv.getitem line (slot_key i "_x2");
    p2x ← to_float x2;
    y2 ← Csv.getitem line (slot_key i "_y2");
    if bool_decide (y2 = Some "433q") then Raise (AssertionError path)
    else
      p2y ← to_float y2;
      Ok (Some (p1x, p1y, p2x, p2y)).

(** The loop itself over the slots still to visit; [lines_per_vp] holds the
    segments read so far. *)
Fixpoint scan_slots (path : string) (line : gmap string (option string))
    (slots : list nat) (lines_per_vp : list vec4) : result (list vec4) :=
  match slots with
  | [] => Ok lines_per_vp
  | i :: slots' =>
      step ← read_slot path line i;
      match step with
      | None => Ok lines_per_vp
      | Some ls => scan_slots path line slots' (lines_per_vp ++ [ls])
      end
  end.

(** One row: scan the four slots and stack what was found. *)
Definition read_line (path : string) (line : gmap string (option string))
  : result (list vec4) :=
  lines_per_vp ← scan_slots path line (seq 1 4) [];
  vstack lines_per_vp.

(** The loop [for line in reader]. *)
Fixpoint read_lines (path : string) (lines : list (gmap string (option string)))
    (labelled_line_segments : list (list vec4)) : result (list (list vec4)) :=
  match lines with
  | [] => Ok labelled_line_segments
  | line :: lines' =>
      lines_per_vp ← read_line path line;
      read_lines path lines' (labelled_line_segments ++ [lines_per_vp])
  end.

Definition read_labelled_lines (path : string) (csv_file : Csv.table)
  : result (list (list vec4)) :=
  read_lines path (Csv.DictReader csv_file) [].

(** One data row of a vps file: the vanishing point [(x, y, 1)] and its
    view direction. *)
Definition view_direction (Kinv : mat3) (vp : vec3) : vec3 :=
  let vd := matvec Kinv vp in
  idiv vd (norm vd).

Definition read_vp (row : list string) : result vec3 :=
  c1 ← Py.getitem row 1;
  x ← to_float (Some c1);
  c2 ← Py.getitem row 2;
  y ← to_float (Some c2);
  Ok (x, y, 1%R).

(** The loop [for ri, row in enumerate(reader)], from row number [ri] on. *)
Fixpoint read_rows (Kinv : mat3) (ri : nat) (rows : list (list string))
    (vp_list vd_list : list vec3) : result (list vec3 * list vec3) :=
  match rows with
  | [] => Ok (vp_list, vd_list)
  | row :: rows' =>
      if (ri =? 0)%nat then read_rows Kinv (S ri) rows' vp_list vd_list
      else
        vp ← read_vp row;
        read_rows Kinv (S ri) rows' (vp_list ++ [vp])
                  (vd_list ++ [view_direction Kinv vp])
  end.

Definition read_vps (Kinv : mat3) (csv_file : Csv.table)
  : result (list vec3 * list vec3) :=
  '(vp_list, vd_list) ← read_rows Kinv 0 csv_file [] [];
  vps ← vstack vp_list;
  vds ← vstack vd_list;
  Ok (vps, reshape3 (vstack_columns vds)).

(** The closing loop [for vi in range(datum["VPs"].shape[0])], which divides
    the rows of the array in place. *)
Definition normalise_row (vps : list vec3) (vi : nat) : list vec3 :=
  match vps !! vi with
  | Some row => <[vi := idiv row (norm row)]> vps
  | None => vps
  end.

Definition normalise_VPs (vps : list vec3) : list vec3 :=
  foldl normalise_row vps (seq 0 (length vps)).

(** The body of [if datum is None:] up to the closing loop: the record for
    identifier [id], with the events of building it. *)
Definition assemble (o : obj) (id : Z) : traced Datum :=
  image_rgb ← match data_mat o with
              | Some mat =>
                  emit (LoadImage id);;
                  im ← lift (Py.getitem (images mat) id);
                  mret (Some im)
              | None => mret None
              end;
  lines_path ← lift (Py.getitem (labelled_line_files o) id);
  csv_file ← open lines_path;
  labelled_line_segments ← lift (read_labelled_lines lines_path csv_file);
  vps_path ← lift (Py.getitem (vps_files o) id);
  csv_file ← open vps_path;
  '(vps, vds) ← lift (read_vps (Kinv o) csv_file);
  depth ← match data_mat o with
          | Some mat =>
              emit (LoadDepth id);;
              d ← lift (Py.getitem (depths mat) id);
              mret (Some (expand_dims d))
          | None => mret None
          end;
  mret {| VPs := normalise_VPs vps;
          id := id;
          VDs := vds;
          image := image_rgb;
          labelled_lines := labelled_line_segments;
          depth := depth |}.

Definition set_dataset (o : obj) (ds : list (option nat)) : obj :=
  {| keep_in_mem := keep_in_mem o;
     remove_borders := remove_borders o;
     vps_files := vps_files o;
     labelled_line_files := labelled_line_files o;
     set_ids := set_ids o;
     dataset := ds;
     data_mat := data_mat o;
     Kinv := Kinv o |}.

(** [self[key]]: the address of the record, or the exception, and the state
    afterwards. *)
Definition __getitem__ (key : Z) (st : state) : result nat * state :=
  let o := self st in
  match Py.getitem (set_ids o) key with
  | Raise e => (Raise e, st)
  | Ok id =>
      match Py.getitem (dataset o) key with
      | Raise e => (Raise e, st)
      | Ok (Some datum) => (Ok datum, st)
      | Ok None =>
          let run := assemble o id in
          let log' := log st ++ events run in
          match outcome run with
          | Raise e => (Raise e, {| self := o; heap := heap st; log := log' |})
          | Ok d =>
              let datum := length (heap st) in
              let heap' := heap st ++ [d] in
              if keep_in_mem o then
                match Py.setitem (dataset o) key (Some datum) with
                | Ok ds =>
                    (Ok datum,
                     {| self := set_dataset o ds; heap := heap'; log := log' |})
                | Raise e =>
                    (Raise e, {| self := o; heap := heap'; log := log' |})
                end
              else (Ok datum, {| self := o; heap := heap'; log := log' |})
          end
      end
  end.

(** The states the program can be in: after the constructor and any number
    of [__getitem__] calls, whatever they returned. *)
Inductive reachable (o : obj) : state -> Prop :=
  | reach_start : reachable o (start o)
  | reach_get st key : reachable o st -> reachable o (__getitem__ key st).2.

(** [later st st']: [st'] follows [st] after some more calls. *)
Inductive later (st : state) : state -> Prop :=
  | later_now : later st st
  | later_get st' key : later st st' -> later st (__getitem__ key st').2.

(** How often an event occurs in a log. *)
Definition count (e : event) (l : list event) : nat :=
  length (filter (eq e) l).

(** What every reachable state of an object built as [o] satisfies: only
    the cache differs from [o]; a record on the heap is what assembling its
    identifier gives; a filled slot [i] holds a record with identifier
    [set_ids[i]] and is only ever filled when caching is on; with caching on,
    the archive was read once for a filled slot and not at all for an empty
    slot whose record can be assembled; without an archive nothing is read
    from one. *)
Record consistent (o : obj) (st : state) : Prop := {
  same_config : self st = set_dataset o (dataset (self st));
  same_length : length (dataset (self st)) = length (set_ids o);
  heap_assembled :
    forall a d, heap st !! a = Some d -> outcome (assemble o (id d)) = Ok d;
  cache_filled :
    forall i a, dataset (self st) !! i = Some (Some a) ->
      keep_in_mem o = true /\
      exists d, heap st !! a = Some d /\ set_ids o !! i = Some (id d);
  read_once :
    forall i a k, dataset (self st) !! i = Some (Some a) ->
      set_ids o !! i = Some k -> data_mat o <> None ->
      count (LoadImage k) (log st) = 1%nat /\ count (LoadDepth k) (log st) = 1%nat;
  read_never :
    forall i k, keep_in_mem o = true -> dataset (self st) !! i = Some None ->
      set_ids o !! i = Some k -> is_ok (outcome (assemble o k)) = true ->
      count (LoadImage k) (log st) = 0%nat /\ count (LoadDepth k) (log st) = 0%nat;
  no_archive :
    forall k, data_mat o = None ->
      count (LoadImage k) (log st) = 0%nat /\ count (LoadDepth k) (log st) = 0%nat
}.

End Reader.

End NYUVP.

(* ------------------------------------------------------------------------- *)
(** ** A small data directory to run the reader on *)
(* ------------------------------------------------------------------------- *)

Module Demo.
Import Py Np NYUVP.

(** [i] in four digits. *)
Definition digit (n : nat) : string := String (ascii_of_nat (48 + n mod 10)) "".

Definition pad4 (i : nat) : string :=
  digit (i / 1000) +:+ digit (i / 100) +:+ digit (i / 10) +:+ digit i.

Definition vps_name (i : nat) : string := "data/vps_" +:+ pad4 i +:+ ".csv".
Definition lines_name (i : nat) : string :=
  "data/labelled_lines_" +:+ pad4 i +:+ ".csv".

Definition vps_table : Csv.table :=
  [ ["id"; "x"; "y"];
    ["0"; "100.0"; "200.0"];
    ["1"; "50.0"; "60.0"] ].

Definition lines_header : list string :=
  [ "line1_x1"; "line1_y1"; "line1_x2"; "line1_y2";
    "line2_x1"; "line2_y1"; "line2_x2"; "line2_y2";
    "line3_x1"; "line3_y1"; "line3_x2"; "line3_y2";
    "line4_x1"; "line4_y1"; "line4_x2"; "line4_y2" ].

Definition lines_table : Csv.table :=
  [ lines_header;
    ["1"; "2"; "3"; "4"; ""; ""; ""; ""; ""; ""; ""; ""; ""; ""; ""; ""];
    ["5"; "6"; "7"; "8"; "9"; "10"; "11"; "12"; ""; ""; ""; ""; ""; ""; ""; ""] ].

(** A vps file with a field that is not a number, and a labelled_lines
    file with the text ["433q"] where a [y2] is expected. *)
Definition bad_vps_table : Csv.table :=
  [ ["id"; "x"; "y"];
    ["0"; "100.0"; "200.0"];
    ["1"; "abc"; "60.0"] ].

Definition bad_lines_table : Csv.table :=
  [ lines_header;
    ["1"; "2"; "3"; "433q"; ""; ""; ""; ""; ""; ""; ""; ""; ""; ""; ""; ""] ].

(** Scene 1 has the bad vps file, scene 2 the bad labelled_lines file, and
    every other file is one of the two good ones. *)
Definition fs (path : string) : option Csv.table :=
  if String.eqb path (vps_name 1) then Some bad_vps_table
  else if String.eqb path (lines_name 2) then Some bad_lines_table
  else if String.prefix "data/vps_" path then Some vps_table
  else if String.prefix "data/labelled_lines_" path then Some lines_table
  else None.

(** A matrix that sends every point to the zero vector. *)
Definition zero_matrix : mat3 := ((0, 0, 0), (0, 0, 0), (0, 0, 0))%R.

Definition all_vps : list string := map vps_name (seq 0 1449).
Definition all_lines : list string := map lines_name (seq 0 1449).

(** An archive with one scene. *)
Definition mat : Mat := {| images := [ [[[0%R]]] ]; depths := [ [[1%R]] ] |}.

Definition cached : obj := __init__ all_vps all_lines true None true.
Definition uncached : obj := __init__ all_vps all_lines false None true.
Definition cached_mat : obj := __init__ all_vps all_lines true (Some mat) true.
Definition uncached_mat : obj := __init__ all_vps all_lines false (Some mat) true.

End Demo.

(* ------------------------------------------------------------------------- *)
(** ** The rest of [nyu.py]: [rgb2gray] and the script at its end *)
(* ------------------------------------------------------------------------- *)

Module Nyu.
Import Py Np NYUVP.

(** [np.dot(u, v)] of two one-dimensional arrays: the lengths must agree.
    (The message of numpy's [ValueError] also spells out the two shapes.) *)
Definition np_dot (u v : list R) : result R :=
  if (length u =? length v)%nat
  then Ok (foldr Rplus 0%R (zip_with Rmult u v))
  else Raise (ValueError "shapes not aligned").

Definition luma : list R := [0.2989; 0.5870; 0.1140]%R.

(** One pixel of [rgb2gray]: [np.dot(px[:3], [0.2989, 0.5870, 0.1140])]. *)
Definition gray_pixel (px : list R) : result R := np_dot (take 3 px) luma.

Fixpoint for_each {A B} (f : A -> result B) (l : list A) : result (list B) :=
  match l with
  | [] => Ok []
  | a :: l' => b ← f a; bs ← for_each f l'; Ok (b :: bs)
  end.

(** [rgb2gray(rgb)] on an array of height x width pixels with at least one
    pixel, given as its rows of pixels, each pixel the list of its channels:
    the product is taken along the last axis, pixel by pixel. *)
Definition rgb2gray (rgb : image_t) : result (list (list R)) :=
  for_each (for_each gray_pixel) rgb.

(** The keys of the dictionary that [__getitem__] returns. *)
Definition datum_keys : list string :=
  ["VPs"; "id"; "VDs"; "image"; "labelled_lines"; "depth"].

(** What the script prints: the hint about [--mat_file] and one line per
    scene, ["image no. %04d -- vps: %d" % (idx, num_vps)]. *)
Inductive output : Type :=
  | Hint
  | Progress (idx : Z) (num_vps : nat).

(** The state of the script: the program state of the data set and the
    script's own variables. *)
Record script : Type := {
  data : state;
  max_num_vp : nat;
  all_num_vps : list nat;
  stdout : list output
}.

Definition set_data (s : script) (st : state) : script :=
  {| data := st; max_num_vp := max_num_vp s;
     all_num_vps := all_num_vps s; stdout := stdout s |}.

Section Script.

Variable fs : string -> option Csv.table.

(** The part of the loop body under [if show_plots:] (it draws) and the
    part of the script after the loop (it prints and draws the totals). *)
Variable plot : Z -> script -> result unit * script.
Variable totals : script -> result unit * script.

(** [dataset[idx][key]]: the record whose entry [key] is read.  (An address
    that [__getitem__] returns is on the heap; the branch for one that is not
    is never taken.) *)
Definition item (idx : Z) (key : string) (s : script) : result Datum * script :=
  match __getitem__ fs idx (data s) with
  | (Raise e, st) => (Raise e, set_data s st)
  | (Ok a, st) =>
      match heap st !! a with
      | None => (Raise IndexError, set_data s st)
      | Some d =>
          if bool_decide (key ∈ datum_keys) then (Ok d, set_data s st)
          else (Raise (KeyError key), set_data s st)
      end
  end.

(** The body of [for idx in range(len(dataset))]. *)
Definition iteration (idx : Z) (s : script) : result unit * script :=
  match item idx "VPs" s with
  | (Raise e, s1) => (Raise e, s1)
  | (Ok d, s1) =>
      let num_vps := length (VPs d) in
      let s2 :=
        {| data := data s1;
           max_num_vp := if (max_num_vp s1 <? num_vps)%nat then num_vps
                         else max_num_vp s1;
           all_num_vps := all_num_vps s1 ++ [num_vps];
           stdout := stdout s1 ++ [Progress idx num_vps] |} in
      match item idx "line_segments" s2 with
      | (Raise e, s3) => (Raise e, s3)
      | (Ok _, s3) =>
          match item idx "VPs" s3 with
          | (Raise e, s4) => (Raise e, s4)
          | (Ok _, s4) => plot idx s4
          end
      end
  end.

Fixpoint for_range (idxs : list Z) (s : script) : result unit * script :=
  match idxs with
  | [] => (Ok tt, s)
  | idx :: idxs' =>
      match iteration idx s with
      | (Raise e, s') => (Raise e, s')
      | (Ok _, s') => for_range idxs' s'
      end
  end.

(** The script: [glob_vps] and [glob_lines] are what the directory
    ["./data"] holds, [mat_file] is the archive when [--mat_file] is
    given. *)
Definition main (glob_vps glob_lines : list string) (mat_file : option Mat)
  : result unit * script :=
  let out := match mat_file with None => [Hint] | Some _ => [] end in
  let dataset := __init__ glob_vps glob_lines true mat_file true in
  let s := {| data := start dataset; max_num_vp := 0;
              all_num_vps := []; stdout := out |} in
  match for_range (range 0 (__len__ dataset)) s with
  | (Raise e, s') => (Raise e, s')
  | (Ok _, s') => totals s'
  end.

End Script.

End Nyu.

(** More inputs to run on. *)
Module Samples.
Import Py Np NYUVP.

(** A 1 x 2 image with an alpha channel, and a pixel with two channels. *)
Definition rgba : image_t := [ [ [255; 255; 255; 7]; [0; 128; 255; 9] ] ]%R.
Definition two_channels : image_t := [ [ [1; 2] ] ]%R.

(** A labelled_lines file whose row starts with an empty slot. *)
Definition lines_empty_slot : Csv.table :=
  [ Demo.lines_header;
    [""; "2"; "3"; "4"; "5"; "6"; "7"; "8"; ""; ""; ""; ""; ""; ""; ""; ""] ].

(** The small directory with a vps file for scene 3 that has a header and
    nothing else. *)
Definition fs (path : string) : option Csv.table :=
  if String.eqb path (Demo.vps_name 3) then Some [ ["id"; "x"; "y"] ]
  else Demo.fs path.

(** The good vps file with other names and identifiers and a further
    column. *)
Definition vps_table_renamed : Csv.table :=
  [ ["vp"; "u"; "v"; "w"];
    ["a"; "100.0"; "200.0"; "9"];
    ["b"; "50.0"; "60.0"; "9"] ].

(** A script whose drawing parts do nothing. *)
Definition no_plot (idx : Z) (s : Nyu.script) : result unit * Nyu.script :=
  (Ok tt, s).
Definition no_totals (s : Nyu.script) : result unit * Nyu.script := (Ok tt, s).

End Samples.


(* ------------------------------------------------------------------------- *)
(** ** Geometry: norms, the intrinsics and their inverse *)
(* ------------------------------------------------------------------------- *)

(** Split an equation between tuples into its cells. *)
Ltac cells :=
  repeat match goal with
         | |- (_, _) = (_, _) => apply pair_equal_spec; split
         end.

Section Geometry.
Import Np NYUVP.
Local Open Scope R_scope.

Lemma dot_self_nonneg (v : vec3) : 0 <= dot v v.
Proof. destruct v as [[x y] z]; unfold dot; nra. Qed.

Lemma norm_nonneg (v : vec3) : 0 <= norm v.
Proof. apply sqrt_pos. Qed.

Lemma norm_sqr (v : vec3) : norm v * norm v = dot v v.
Proof. apply sqrt_sqrt, dot_self_nonneg. Qed.

Lemma dot_idiv (v : vec3) (s : R) :
  s <> 0 -> dot (idiv v s) (idiv v s) = dot v v / (s * s).
Proof. intros Hs; destruct v as [[x y] z]; unfold dot, idiv; field; exact Hs. Qed.

(** Dividing an array by its own norm gives a unit array, as soon as that
    norm is not zero. *)
Lemma norm_idiv_norm (v : vec3) : norm v <> 0 -> norm (idiv v (norm v)) = 1.
Proof.
  intros Hn. unfold norm at 1.
  rewrite (dot_idiv _ _ Hn), norm_sqr.
  replace (dot v v / dot v v) with 1; [apply sqrt_1|].
  field. rewrite <- norm_sqr. nra.
Qed.

(** An array whose last cell is 1 has norm at least 1. *)
Lemma norm_last_one (x y : R) : 1 <= norm (x, y, 1).
Proof.
  unfold norm. rewrite <- sqrt_1 at 1.
  apply sqrt_le_1_alt. unfold dot. nra.
Qed.

Lemma det_K : det K = fx_rgb * fy_rgb.
Proof. unfold det, K. ring. Qed.

Lemma fx_rgb_pos : 0 < fx_rgb.
Proof. unfold fx_rgb; lra. Qed.

Lemma fy_rgb_pos : 0 < fy_rgb.
Proof. unfold fy_rgb; lra. Qed.

(** [K.I] written out. *)
Lemma inv_K :
  inv K = ((/ fx_rgb, 0, - cx_rgb / fx_rgb),
           (0, / fy_rgb, - cy_rgb / fy_rgb),
           (0, 0, 1)).
Proof.
  pose proof fx_rgb_pos. pose proof fy_rgb_pos.
  unfold inv, adj, det, K, idiv.
  cells; field; lra.
Qed.

Lemma inv_K_right : matmul K (inv K) = eye.
Proof.
  pose proof fx_rgb_pos. pose proof fy_rgb_pos.
  rewrite inv_K. unfold matmul, K, eye, col, dot.
  cells; field; lra.
Qed.

Lemma inv_K_left : matmul (inv K) K = eye.
Proof.
  pose proof fx_rgb_pos. pose proof fy_rgb_pos.
  rewrite inv_K. unfold matmul, K, eye, col, dot.
  cells; field; lra.
Qed.

(** Back-projecting [(x, y, 1)]. *)
Lemma backproject (x y : R) :
  matvec (inv K) (x, y, 1)
  = ((x - cx_rgb) / fx_rgb, (y - cy_rgb) / fy_rgb, 1).
Proof.
  pose proof fx_rgb_pos. pose proof fy_rgb_pos.
  rewrite inv_K. unfold matvec, dot.
  cells; field; lra.
Qed.

Lemma norm_backproject (x y : R) : 1 <= norm (matvec (inv K) (x, y, 1)).
Proof. rewrite backproject. apply norm_last_one. Qed.

Lemma view_direction_unit (x y : R) :
  norm (view_direction (inv K) (x, y, 1)) = 1.
Proof.
  unfold view_direction. apply norm_idiv_norm.
  pose proof (norm_backproject x y). lra.
Qed.

(** Cutting stacked columns into rows of three gives the columns back. *)
Lemma reshape3_vstack_columns (vs : list vec3) :
  reshape3 (vstack_columns vs) = vs.
Proof.
  induction vs as [|[[x y] z] vs IH]; [reflexivity|].
  unfold vstack_columns in *. simpl. now rewrite IH.
Qed.

End Geometry.

(* ------------------------------------------------------------------------- *)
(** ** Python lists and the two monads *)
(* ------------------------------------------------------------------------- *)

Section Runtime.
Import Py NYUVP.

Lemma bind_ok {A B} (m : result A) (k : A -> result B) (b : B) :
  (m ≫= k) = Ok b <-> exists a, m = Ok a /\ k a = Ok b.
Proof.
  unfold mbind, result_bind, bind. destruct m as [a|e]; split.
  - eauto.
  - intros (a' & [= <-] & H); exact H.
  - discriminate.
  - intros (a' & [=] & _).
Qed.

Lemma bind_raise {A B} (m : result A) (k : A -> result B) (e : exn) :
  m = Raise e -> (m ≫= k) = Raise e.
Proof. intros ->; reflexivity. Qed.

Lemma bind_raise_inv {A B} (m : result A) (k : A -> result B) (e : exn) :
  (m ≫= k) = Raise e -> m = Raise e \/ exists a, m = Ok a /\ k a = Raise e.
Proof.
  unfold mbind, result_bind, bind. destruct m as [a|e']; [eauto|].
  intros [= ->]. now left.
Qed.

Lemma bind_step {A B} (m : result A) (k : A -> result B) (a : A) :
  m = Ok a -> (m ≫= k) = k a.
Proof. intros ->; reflexivity. Qed.

Lemma norm_index_lt (n : nat) (k : Z) (i : nat) :
  norm_index n k = Some i -> (i < n)%nat.
Proof.
  unfold norm_index. repeat case_match; intros [= <-]; lia.
Qed.

Lemma norm_index_nonneg (n : nat) (k : Z) :
  0 <= k < Z.of_nat n -> norm_index n k = Some (Z.to_nat k).
Proof.
  intros H. unfold norm_index.
  destruct (0 <=? k) eqn:E1; [|lia].
  destruct (k <? Z.of_nat n) eqn:E2; [reflexivity|lia].
Qed.

Lemma norm_index_neg (n : nat) (k : Z) :
  - Z.of_nat n <= k < 0 -> norm_index n k = Some (Z.to_nat (Z.of_nat n + k)).
Proof.
  intros H. unfold norm_index.
  destruct (0 <=? k) eqn:E1; [lia|]. simpl.
  destruct (- Z.of_nat n <=? k) eqn:E2; [|lia].
  destruct (k <? 0) eqn:E3; [reflexivity|lia].
Qed.

Lemma norm_index_out (n : nat) (k : Z) :
  k < - Z.of_nat n \/ Z.of_nat n <= k -> norm_index n k = None.
Proof.
  intros H. unfold norm_index.
  repeat case_match; try reflexivity; lia.
Qed.

Lemma getitem_ok {A} (l : list A) (k : Z) (a : A) :
  getitem l k = Ok a <->
  exists i, norm_index (length l) k = Some i /\ l !! i = Some a.
Proof.
  unfold getitem. split.
  - destruct (norm_index (length l) k) as [i|]; [|discriminate].
    destruct (l !! i) eqn:E; [|discriminate]. intros [= <-]. eauto.
  - intros (i & -> & ->). reflexivity.
Qed.

Lemma getitem_index {A} (l : list A) (k : Z) (i : nat) :
  norm_index (length l) k = Some i -> exists a, l !! i = Some a /\ getitem l k = Ok a.
Proof.
  intros H. pose proof (norm_index_lt _ _ _ H) as Hlt.
  destruct (lookup_lt_is_Some_2 l i Hlt) as [a Ha].
  exists a. split; [exact Ha|]. apply getitem_ok. eauto.
Qed.

Lemma getitem_out {A} (l : list A) (k : Z) :
  norm_index (length l) k = None -> getitem l k = Raise IndexError.
Proof. unfold getitem. intros ->. reflexivity. Qed.

Lemma length_range (lo hi : Z) : length (range lo hi) = Z.to_nat (hi - lo).
Proof. unfold range. now rewrite length_map, length_seq. Qed.

Lemma lookup_range (lo hi : Z) (i : nat) :
  (i < Z.to_nat (hi - lo))%nat -> range lo hi !! i = Some (lo + Z.of_nat i).
Proof.
  intros H. unfold range. rewrite list_lookup_fmap.
  rewrite lookup_seq_lt by exact H. reflexivity.
Qed.

Lemma getitem_nat {A} (l : list A) (i : nat) (a : A) :
  getitem l (Z.of_nat i) = Ok a <-> l !! i = Some a.
Proof.
  rewrite getitem_ok. split.
  - intros (j & Hj & Ha). unfold norm_index in Hj.
    destruct (Z.leb_spec 0 (Z.of_nat i)) as [_|E1]; [|lia].
    destruct (Z.ltb_spec (Z.of_nat i) 0) as [E2|_]; [lia|].
    rewrite andb_false_r in Hj.
    destruct (Z.of_nat i <? Z.of_nat (length l)); [|discriminate].
    injection Hj as <-. now rewrite Nat2Z.id in Ha.
  - intros Ha. exists i. split; [|exact Ha].
    apply lookup_lt_Some in Ha.
    rewrite norm_index_nonneg by lia. now rewrite Nat2Z.id.
Qed.

Lemma to_float_ok (v : option string) (r : R) :
  to_float v = Ok r <-> exists text, v = Some text /\ float text = Num r.
Proof.
  unfold to_float. split.
  - destruct v as [text|]; [|discriminate].
    destruct (float text) eqn:E; try discriminate.
    intros [= <-]. eauto.
  - intros (text & -> & ->). reflexivity.
Qed.

Lemma getitem_raise {A} (l : list A) (k : Z) (e : exn) :
  getitem l k = Raise e -> e = IndexError.
Proof. unfold getitem. repeat case_match; congruence. Qed.

Lemma to_float_raise (text : string) (e : exn) :
  to_float (Some text) = Raise e ->
  (exists t, e = ValueError t) \/ (exists t, e = NonFinite t).
Proof.
  unfold to_float. destruct (float text); intros [= <-]; eauto.
Qed.

Lemma to_float_bad (text : string) :
  float text = Bad -> to_float (Some text) = Raise (ValueError (float_error text)).
Proof. unfold to_float. intros ->. reflexivity. Qed.

End Runtime.

(* ------------------------------------------------------------------------- *)
(** ** The vps file *)
(* ------------------------------------------------------------------------- *)

Section VpsFile.
Import Py Np NYUVP.

(** A data row gives a vanishing point exactly when its fields 1 and 2 are
    decimal literals. *)
Lemma read_vp_ok (row : list string) (vp : vec3) :
  read_vp row = Ok vp <->
  exists c1 c2 x y,
    row !! 1%nat = Some c1 /\ row !! 2%nat = Some c2 /\
    float c1 = Num x /\ float c2 = Num y /\ vp = (x, y, 1%R).
Proof.
  unfold read_vp. split.
  - intros H.
    apply bind_ok in H as (c1 & H1 & H).
    apply bind_ok in H as (x & Hx & H).
    apply bind_ok in H as (c2 & H2 & H).
    apply bind_ok in H as (y & Hy & H).
    injection H as <-.
    apply (getitem_nat row 1) in H1. apply (getitem_nat row 2) in H2.
    apply to_float_ok in Hx as (t1 & [= <-] & Hx).
    apply to_float_ok in Hy as (t2 & [= <-] & Hy).
    exists c1, c2, x, y. auto.
  - intros (c1 & c2 & x & y & H1 & H2 & Hx & Hy & ->).
    apply (getitem_nat row 1) in H1. apply (getitem_nat row 2) in H2.
    rewrite (bind_step _ _ _ H1).
    rewrite (bind_step _ _ x) by (apply to_float_ok; eauto).
    rewrite (bind_step _ _ _ H2).
    rewrite (bind_step _ _ y) by (apply to_float_ok; eauto).
    reflexivity.
Qed.

(** The loop over the data rows appends, in row order, one vanishing point
    and one view direction per row. *)
Lemma read_rows_ok (Kinv : mat3) (rows : list (list string)) :
  forall (ri : nat) (vp_list vd_list vps vds : list vec3),
    read_rows Kinv (S ri) rows vp_list vd_list = Ok (vps, vds) <->
    exists new,
      Forall2 (fun row vp => read_vp row = Ok vp) rows new /\
      vps = vp_list ++ new /\
      vds = vd_list ++ map (view_direction Kinv) new.
Proof.
  induction rows as [|row rows IH]; intros ri vp_list vd_list vps vds; simpl.
  - split.
    + intros [= <- <-]. exists []. rewrite !app_nil_r. auto.
    + intros (new & Hall & -> & ->). inversion Hall; subst.
      simpl. now rewrite !app_nil_r.
  - split.
    + intros H. apply bind_ok in H as (vp & Hvp & H).
      apply IH in H as (new & Hall & -> & ->).
      exists (vp :: new). simpl. rewrite <- !app_assoc. auto.
    + intros (new & Hall & -> & ->).
      inversion Hall as [|? vp ? new' Hvp Hall']; subst.
      rewrite (bind_step _ _ _ Hvp). apply IH.
      exists new'. simpl. rewrite <- !app_assoc. auto.
Qed.

(** A row that does not parse stops the loop with the exception of that
    row. *)
Lemma read_rows_raise (Kinv : mat3) (pre : list (list string)) :
  forall (ri : nat) (row : list string) (post : list (list string))
         (vp_list vd_list : list vec3) (e : exn),
    Forall (fun r => is_ok (read_vp r) = true) pre ->
    read_vp row = Raise e ->
    read_rows Kinv (S ri) (pre ++ row :: post) vp_list vd_list = Raise e.
Proof.
  induction pre as [|r pre IH]; intros ri row post vp_list vd_list e Hpre Hrow; simpl.
  - now rewrite (bind_raise _ _ _ Hrow).
  - inversion Hpre as [|? ? Hr Hpre']; subst.
    destruct (read_vp r) as [vp|] eqn:E; [|discriminate].
    rewrite (bind_step _ _ vp) by reflexivity.
    now apply IH.
Qed.

(** The whole file: a header, at least one data row, and then the two
    arrays row by row. *)
Lemma read_vps_ok (Kinv : mat3) (csv_file : Csv.table) (vps vds : list vec3) :
  read_vps Kinv csv_file = Ok (vps, vds) <->
  exists header rows,
    csv_file = header :: rows /\ rows <> [] /\
    Forall2 (fun row vp => read_vp row = Ok vp) rows vps /\
    vds = map (view_direction Kinv) vps.
Proof.
  unfold read_vps. split.
  - intros H. apply bind_ok in H as ([vp_list vd_list] & Hrows & H).
    destruct csv_file as [|header rows]; simpl in Hrows.
    { injection Hrows as <- <-. discriminate. }
    apply (read_rows_ok Kinv rows 0) in Hrows as (new & Hall & -> & ->).
    simpl in H.
    destruct new as [|vp new]; [discriminate|]. simpl in H.
    injection H as <- <-.
    exists header, rows. split; [reflexivity|]. split.
    { intros ->. inversion Hall. }
    split; [exact Hall|].
    apply (reshape3_vstack_columns (view_direction Kinv vp :: map _ new)).
  - intros (header & rows & -> & Hne & Hall & ->). simpl.
    rewrite (bind_step _ _ (vps, map (view_direction Kinv) vps)).
    + destruct vps as [|vp vps]; [inversion Hall; congruence|].
      simpl. f_equal. f_equal.
      apply (reshape3_vstack_columns (view_direction Kinv vp :: map _ vps)).
    + apply (read_rows_ok Kinv rows 0). exists vps. auto.
Qed.

(** The closing loop divides every row by its norm. *)
Lemma normalise_VPs_map (vps : list vec3) :
  normalise_VPs vps = map (fun row => idiv row (norm row)) vps.
Proof.
  unfold normalise_VPs.
  enough (H : forall done todo,
             foldl normalise_row (done ++ todo)
                   (seq (length done) (length todo))
             = done ++ map (fun row => idiv row (norm row)) todo)
    by exact (H [] vps).
  intros done todo. revert done.
  induction todo as [|row todo IH]; intros done; simpl.
  - reflexivity.
  - unfold normalise_row at 2.
    rewrite list_lookup_middle by reflexivity.
    rewrite (insert_app_r_alt done (row :: todo) (length done)) by lia.
    rewrite Nat.sub_diag. simpl.
    specialize (IH (done ++ [idiv row (norm row)])).
    rewrite length_app, Nat.add_1_r, <- !app_assoc in IH. exact IH.
Qed.

(** Reading a vps file raises only for a row that is too short, a field
    that is not a number, or a file without data rows. *)
Lemma read_vp_exn (row : list string) (e : exn) :
  read_vp row = Raise e ->
  match e with IndexError | ValueError _ | NonFinite _ => True | _ => False end.
Proof.
  unfold read_vp. intros H.
  apply bind_raise_inv in H as [H|(c1 & _ & H)];
    [apply getitem_raise in H as ->; exact I|].
  apply bind_raise_inv in H as [H|(x & _ & H)];
    [apply to_float_raise in H as [(t & ->)|(t & ->)]; exact I|].
  apply bind_raise_inv in H as [H|(c2 & _ & H)];
    [apply getitem_raise in H as ->; exact I|].
  apply bind_raise_inv in H as [H|(y & _ & H)];
    [apply to_float_raise in H as [(t & ->)|(t & ->)]; exact I|].
  discriminate.
Qed.

Lemma read_rows_exn (Kinv : mat3) (rows : list (list string)) :
  forall ri vp_list vd_list e,
    read_rows Kinv (S ri) rows vp_list vd_list = Raise e ->
    match e with IndexError | ValueError _ | NonFinite _ => True | _ => False end.
Proof.
  induction rows as [|row rows IH]; intros ri vp_list vd_list e; simpl.
  - discriminate.
  - destruct (read_vp row) as [vp|e'] eqn:Hrow.
    + rewrite (bind_step _ _ vp) by reflexivity. apply IH.
    + rewrite (bind_raise _ _ e') by reflexivity.
      intros [= <-]. exact (read_vp_exn _ _ Hrow).
Qed.

Lemma read_vps_exn (Kinv : mat3) (csv_file : Csv.table) (e : exn) :
  read_vps Kinv csv_file = Raise e ->
  match e with IndexError | ValueError _ | NonFinite _ => True | _ => False end.
Proof.
  unfold read_vps.
  destruct (read_rows Kinv 0 csv_file [] []) as [[vp_list vd_list]|e'] eqn:Hrows.
  - rewrite (bind_step _ _ (vp_list, vd_list)) by reflexivity.
    destruct vp_list; simpl; [intros [= <-]; exact I|].
    destruct vd_list; simpl; [intros [= <-]; exact I|discriminate].
  - rewrite (bind_raise _ _ e') by reflexivity. intros [= <-].
    destruct csv_file as [|header rows]; [discriminate|].
    exact (read_rows_exn Kinv rows 0 [] [] _ Hrows).
Qed.

(** C10.  The last row of [K] and of its inverse is [(0, 0, 1)]; so for all
    reals [x] and [y] the last cell of [Kinv @ (x, y, 1)] is 1 and the norm
    of that vector is at least 1, hence not zero; the matrix of every object
    is this inverse, and every data row that parses gives a point whose
    back-projection has a norm that is not zero: the division by the norm
    never divides by zero. *)
Theorem backprojection_norm_is_never_zero :
  (exists r1 r2, K = (r1, r2, (0, 0, 1))%R) /\
  (exists r1 r2, inv K = (r1, r2, (0, 0, 1))%R) /\
  (forall glob_vps glob_lines keep mat_file borders,
     Kinv (__init__ glob_vps glob_lines keep mat_file borders) = inv K) /\
  (forall x y : R,
     (exists a b, matvec (inv K) (x, y, 1%R) = (a, b, 1%R)) /\
     (1 <= norm (matvec (inv K) (x, y, 1)))%R /\
     norm (matvec (inv K) (x, y, 1%R)) <> 0%R) /\
  (forall row vp,
     read_vp row = Ok vp -> norm (matvec (inv K) vp) <> 0%R).
Proof.
  assert (Hnz : forall x y : R, norm (matvec (inv K) (x, y, 1%R)) <> 0%R).
  { intros x y. pose proof (norm_backproject x y). lra. }
  split; [unfold K; eauto|]. split; [rewrite inv_K; eauto|].
  split; [reflexivity|]. split.
  - intros x y. split; [rewrite backproject; eauto|].
    split; [apply norm_backproject|apply Hnz].
  - intros row vp Hrow.
    apply read_vp_ok in Hrow as (_ & _ & x & y & _ & _ & _ & _ & ->).
    apply Hnz.
Qed.


End VpsFile.

(* ------------------------------------------------------------------------- *)
(** ** The labelled_lines file *)
(* ------------------------------------------------------------------------- *)

Section LinesFile.
Import Py Np NYUVP.

Lemma csv_getitem_ok (line : gmap string (option string)) (key : string)
    (v : option string) :
  Csv.getitem line key = Ok v <-> line !! key = Some v.
Proof.
  unfold Csv.getitem. destruct (line !! key); split; congruence.
Qed.

(** The body leaves the loop exactly on an empty [x1] field. *)
Lemma read_slot_break (path : string) (line : gmap string (option string))
    (i : nat) :
  read_slot path line i = Ok None <-> line !! slot_key i "_x1" = Some (Some "").
Proof.
  unfold read_slot. split.
  - intros H. apply bind_ok in H as (x1 & H1 & H).
    apply csv_getitem_ok in H1.
    destruct (bool_decide_reflect (x1 = Some "")) as [->|_]; [exact H1|].
    apply bind_ok in H as (? & _ & H). apply bind_ok in H as (? & _ & H).
    apply bind_ok in H as (? & _ & H). apply bind_ok in H as (? & _ & H).
    apply bind_ok in H as (? & _ & H). apply bind_ok in H as (y2 & _ & H).
    destruct (bool_decide (y2 = Some "433q")); [discriminate|].
    apply bind_ok in H as (? & _ & H). discriminate.
  - intros H. apply csv_getitem_ok in H.
    rewrite (bind_step _ _ _ H). reflexivity.
Qed.

(** The body yields a segment exactly when the four fields of the slot are
    decimal literals (the first one then is not empty). *)
Lemma read_slot_segment (path : string) (line : gmap string (option string))
    (i : nat) (ls : vec4) :
  read_slot path line i = Ok (Some ls) <->
  exists tx1 ty1 tx2 ty2 p1x p1y p2x p2y,
    line !! slot_key i "_x1" = Some (Some tx1) /\
    line !! slot_key i "_y1" = Some (Some ty1) /\
    line !! slot_key i "_x2" = Some (Some tx2) /\
    line !! slot_key i "_y2" = Some (Some ty2) /\
    tx1 <> "" /\
    float tx1 = Num p1x /\ float ty1 = Num p1y /\
    float tx2 = Num p2x /\ float ty2 = Num p2y /\
    ls = (p1x, p1y, p2x, p2y).
Proof.
  unfold read_slot. split.
  - intros H. apply bind_ok in H as (x1 & H1 & H).
    apply csv_getitem_ok in H1.
    destruct (bool_decide_reflect (x1 = Some "")) as [->|Hne]; [discriminate|].
    apply bind_ok in H as (p1x & Hx1 & H).
    apply bind_ok in H as (y1 & H2 & H). apply bind_ok in H as (p1y & Hy1 & H).
    apply bind_ok in H as (x2 & H3 & H). apply bind_ok in H as (p2x & Hx2 & H).
    apply bind_ok in H as (y2 & H4 & H).
    destruct (bool_decide (y2 = Some "433q")); [discriminate|].
    apply bind_ok in H as (p2y & Hy2 & H). injection H as <-.
    apply csv_getitem_ok in H2, H3, H4.
    apply to_float_ok in Hx1 as (tx1 & -> & Hx1).
    apply to_float_ok in Hy1 as (ty1 & -> & Hy1).
    apply to_float_ok in Hx2 as (tx2 & -> & Hx2).
    apply to_float_ok in Hy2 as (ty2 & -> & Hy2).
    exists tx1, ty1, tx2, ty2, p1x, p1y, p2x, p2y.
    repeat split; try assumption. congruence.
  - intros (tx1 & ty1 & tx2 & ty2 & p1x & p1y & p2x & p2y
            & H1 & H2 & H3 & H4 & Hne & Hx1 & Hy1 & Hx2 & Hy2 & ->).
    apply csv_getitem_ok in H1, H2, H3, H4.
    rewrite (bind_step _ _ _ H1).
    destruct (bool_decide_reflect (Some tx1 = Some "")) as [[= E]|_]; [congruence|].
    rewrite (bind_step _ _ p1x) by (apply to_float_ok; eauto).
    rewrite (bind_step _ _ _ H2).
    rewrite (bind_step _ _ p1y) by (apply to_float_ok; eauto).
    rewrite (bind_step _ _ _ H3).
    rewrite (bind_step _ _ p2x) by (apply to_float_ok; eauto).
    rewrite (bind_step _ _ _ H4).
    destruct (bool_decide_reflect (Some ty2 = Some "433q")) as [[= ->]|_].
    { vm_compute in Hy2. discriminate. }
    rewrite (bind_step _ _ p2y) by (apply to_float_ok; eauto).
    reflexivity.
Qed.

(** The loop from slot [first] over [count] slots: what it adds is the
    segments of the leading slots that the body accepts, and it stops early
    only where the body breaks. *)
Lemma scan_slots_ok (path : string) (line : gmap string (option string))
    (count : nat) :
  forall (first : nat) (acc out : list vec4),
    scan_slots path line (seq first count) acc = Ok out <->
    exists new,
      out = acc ++ new /\ (length new <= count)%nat /\
      (forall j ls, new !! j = Some ls ->
                    read_slot path line (first + j) = Ok (Some ls)) /\
      ((length new < count)%nat ->
       read_slot path line (first + length new) = Ok None).
Proof.
  induction count as [|count IH]; intros first acc out; simpl.
  - split.
    + intros [= <-]. exists []. rewrite app_nil_r.
      repeat split; simpl; [lia| |lia]. intros j ls H. discriminate.
    + intros (new & -> & Hlen & _). destruct new; [|simpl in Hlen; lia].
      now rewrite app_nil_r.
  - split.
    + intros H. apply bind_ok in H as (step & Hstep & H).
      destruct step as [ls|].
      * apply IH in H as (new & -> & Hlen & Hseg & Hstop).
        exists (ls :: new). rewrite <- app_assoc. simpl.
        repeat split; [lia| |].
        -- intros [|j] ls' Hj; simpl in Hj.
           ++ injection Hj as <-. now rewrite Nat.add_0_r.
           ++ rewrite Nat.add_succ_r. apply (Hseg j ls' Hj).
        -- intros Hlt. rewrite Nat.add_succ_r. apply Hstop. lia.
      * injection H as <-. exists []. rewrite app_nil_r. simpl.
        repeat split; [lia| |].
        -- intros j ls H. discriminate.
        -- intros _. now rewrite Nat.add_0_r.
    + intros (new & -> & Hlen & Hseg & Hstop).
      destruct new as [|ls new].
      * simpl in Hstop. rewrite Nat.add_0_r in Hstop.
        rewrite (bind_step _ _ None) by (apply Hstop; lia).
        now rewrite app_nil_r.
      * pose proof (Hseg 0%nat ls eq_refl) as H0. rewrite Nat.add_0_r in H0.
        rewrite (bind_step _ _ _ H0). apply IH.
        exists new. rewrite <- app_assoc. simpl in *.
        repeat split; [lia| |].
        -- intros j ls' Hj. specialize (Hseg (S j) ls' Hj).
           now rewrite Nat.add_succ_r in Hseg.
        -- intros Hlt. rewrite Nat.add_succ_r in Hstop. apply Hstop. lia.
Qed.

(** One row. *)
Lemma read_line_ok (path : string) (line : gmap string (option string))
    (group : list vec4) :
  read_line path line = Ok group <->
  (1 <= length group <= 4)%nat /\
  (forall j ls, group !! j = Some ls ->
                read_slot path line (S j) = Ok (Some ls)) /\
  ((length group < 4)%nat ->
   read_slot path line (S (length group)) = Ok None).
Proof.
  unfold read_line. split.
  - intros H. apply bind_ok in H as (segs & Hscan & H).
    apply scan_slots_ok in Hscan as (new & -> & Hlen & Hseg & Hstop).
    simpl in H. destruct new as [|ls new]; [discriminate|].
    injection H as <-. simpl in *. repeat split; [lia|lia|exact Hseg|exact Hstop].
  - intros ([Hlo Hhi] & Hseg & Hstop).
    rewrite (bind_step _ _ group).
    + destruct group; [simpl in Hlo; lia|reflexivity].
    + apply scan_slots_ok. exists group. simpl. auto.
Qed.

(** The loop over the rows adds one group per row, in row order. *)
Lemma read_lines_ok (path : string) (lines : list (gmap string (option string))) :
  forall (acc out : list (list vec4)),
    read_lines path lines acc = Ok out <->
    exists new,
      out = acc ++ new /\
      Forall2 (fun line group => read_line path line = Ok group) lines new.
Proof.
  induction lines as [|line lines IH]; intros acc out; simpl.
  - split.
    + intros [= <-]. exists []. now rewrite app_nil_r.
    + intros (new & -> & Hall). inversion Hall. now rewrite app_nil_r.
  - split.
    + intros H. apply bind_ok in H as (group & Hg & H).
      apply IH in H as (new & -> & Hall).
      exists (group :: new). rewrite <- app_assoc. auto.
    + intros (new & -> & Hall).
      inversion Hall as [|? group ? new' Hg Hall']; subst.
      rewrite (bind_step _ _ _ Hg). apply IH.
      exists new'. rewrite <- app_assoc. auto.
Qed.

Lemma read_labelled_lines_ok (path : string) (csv_file : Csv.table)
    (groups : list (list vec4)) :
  read_labelled_lines path csv_file = Ok groups <->
  Forall2 (fun line group => read_line path line = Ok group)
          (Csv.DictReader csv_file) groups.
Proof.
  unfold read_labelled_lines. rewrite read_lines_ok. split.
  - intros (new & -> & H). exact H.
  - intros H. exists groups. auto.
Qed.

(** The text ["433q"] is not a number. *)
Lemma float_sentinel : float "433q" = Bad.
Proof. vm_compute. reflexivity. Qed.

(** The sentinel where [y2] is expected trips the assertion, whose message
    is the path of the file. *)
Lemma read_slot_sentinel_y2 (path : string) (line : gmap string (option string))
    (i : nat) (tx1 ty1 tx2 : string) (p1x p1y p2x : R) :
  line !! slot_key i "_x1" = Some (Some tx1) -> tx1 <> "" ->
  line !! slot_key i "_y1" = Some (Some ty1) ->
  line !! slot_key i "_x2" = Some (Some tx2) ->
  line !! slot_key i "_y2" = Some (Some "433q") ->
  float tx1 = Num p1x -> float ty1 = Num p1y -> float tx2 = Num p2x ->
  read_slot path line i = Raise (AssertionError path).
Proof.
  intros H1 Hne H2 H3 H4 Hx1 Hy1 Hx2. unfold read_slot.
  apply csv_getitem_ok in H1, H2, H3, H4.
  rewrite (bind_step _ _ _ H1).
  destruct (bool_decide_reflect (Some tx1 = Some "")) as [[= E]|_]; [congruence|].
  rewrite (bind_step _ _ p1x) by (apply to_float_ok; eauto).
  rewrite (bind_step _ _ _ H2).
  rewrite (bind_step _ _ p1y) by (apply to_float_ok; eauto).
  rewrite (bind_step _ _ _ H3).
  rewrite (bind_step _ _ p2x) by (apply to_float_ok; eauto).
  rewrite (bind_step _ _ _ H4). reflexivity.
Qed.

(** A text that is not a number in one of the three fields before [y2]
    makes [float] raise its [ValueError]. *)
Lemma read_slot_bad_x1 (path : string) (line : gmap string (option string))
    (i : nat) (text : string) :
  line !! slot_key i "_x1" = Some (Some text) -> text <> "" ->
  float text = Bad ->
  read_slot path line i = Raise (ValueError (float_error text)).
Proof.
  intros H1 Hne Hbad. unfold read_slot.
  apply csv_getitem_ok in H1. rewrite (bind_step _ _ _ H1).
  destruct (bool_decide_reflect (Some text = Some "")) as [[= ->]|_];
    [congruence|].
  apply bind_raise. now apply to_float_bad.
Qed.

Lemma read_slot_bad_y1 (path : string) (line : gmap string (option string))
    (i : nat) (tx1 text : string) (p1x : R) :
  line !! slot_key i "_x1" = Some (Some tx1) -> float tx1 = Num p1x ->
  line !! slot_key i "_y1" = Some (Some text) -> float text = Bad ->
  read_slot path line i = Raise (ValueError (float_error text)).
Proof.
  intros H1 Hx1 H2 Hbad. unfold read_slot.
  apply csv_getitem_ok in H1, H2. rewrite (bind_step _ _ _ H1).
  destruct (bool_decide_reflect (Some tx1 = Some "")) as [[= ->]|_].
  { vm_compute in Hx1. discriminate. }
  rewrite (bind_step _ _ p1x) by (apply to_float_ok; eauto).
  rewrite (bind_step _ _ _ H2).
  apply bind_raise. now apply to_float_bad.
Qed.

Lemma read_slot_bad_x2 (path : string) (line : gmap string (option string))
    (i : nat) (tx1 ty1 text : string) (p1x p1y : R) :
  line !! slot_key i "_x1" = Some (Some tx1) -> float tx1 = Num p1x ->
  line !! slot_key i "_y1" = Some (Some ty1) -> float ty1 = Num p1y ->
  line !! slot_key i "_x2" = Some (Some text) -> float text = Bad ->
  read_slot path line i = Raise (ValueError (float_error text)).
Proof.
  intros H1 Hx1 H2 Hy1 H3 Hbad. unfold read_slot.
  apply csv_getitem_ok in H1, H2, H3. rewrite (bind_step _ _ _ H1).
  destruct (bool_decide_reflect (Some tx1 = Some "")) as [[= ->]|_].
  { vm_compute in Hx1. discriminate. }
  rewrite (bind_step _ _ p1x) by (apply to_float_ok; eauto).
  rewrite (bind_step _ _ _ H2).
  rewrite (bind_step _ _ p1y) by (apply to_float_ok; eauto).
  rewrite (bind_step _ _ _ H3).
  apply bind_raise. now apply to_float_bad.
Qed.

(** The exception of a slot is the exception of its row, when the slots
    before it gave segments. *)
Lemma scan_slots_raise (path : string) (line : gmap string (option string))
    (e : exn) (count : nat) :
  forall (first j : nat) (acc : list vec4),
    (j < count)%nat ->
    (forall j', (j' < j)%nat ->
                exists ls, read_slot path line (first + j') = Ok (Some ls)) ->
    read_slot path line (first + j) = Raise e ->
    scan_slots path line (seq first count) acc = Raise e.
Proof.
  induction count as [|count IH]; intros first j acc Hj Hbefore Hraise; [lia|].
  simpl. destruct j as [|j].
  - rewrite Nat.add_0_r in Hraise. now rewrite (bind_raise _ _ _ Hraise).
  - destruct (Hbefore 0%nat) as [ls Hls]; [lia|].
    rewrite Nat.add_0_r in Hls. rewrite (bind_step _ _ _ Hls).
    apply (IH (S first) j); [lia| |].
    + intros j' Hj'. destruct (Hbefore (S j')) as [ls' Hls']; [lia|].
      exists ls'. now rewrite Nat.add_succ_r in Hls'.
    + now rewrite Nat.add_succ_r in Hraise.
Qed.

Lemma read_line_raise (path : string) (line : gmap string (option string))
    (j : nat) (e : exn) :
  (j < 4)%nat ->
  (forall j', (j' < j)%nat ->
              exists ls, read_slot path line (S j') = Ok (Some ls)) ->
  read_slot path line (S j) = Raise e ->
  read_line path line = Raise e.
Proof.
  intros Hj Hbefore Hraise. unfold read_line.
  apply bind_raise. now apply (scan_slots_raise path line e 4 1 j).
Qed.

(** The exception of a row is the exception of the file, when the rows
    before it were read. *)
Lemma read_lines_raise (path : string) (e : exn)
    (pre : list (gmap string (option string))) :
  forall line post acc,
    Forall (fun l => is_ok (read_line path l) = true) pre ->
    read_line path line = Raise e ->
    read_lines path (pre ++ line :: post) acc = Raise e.
Proof.
  induction pre as [|l pre IH]; intros line post acc Hpre Hraise; simpl.
  - now rewrite (bind_raise _ _ _ Hraise).
  - inversion Hpre as [|? ? Hl Hpre']; subst.
    destruct (read_line path l) as [group|] eqn:E; [|discriminate].
    rewrite (bind_step _ _ group) by reflexivity. now apply IH.
Qed.

(** C4.  In a labelled_lines file that is read, every row gives one group;
    the group of a row has between 1 and 4 segments; its segment number [j]
    (from 0) is the four numbers of slot [j + 1], whose [x1] field is not
    empty; and if the group has fewer than 4 segments, the [x1] field of the
    next slot is the empty text: the group is exactly the run of populated
    slots from slot 1 up to the first empty one.  In particular a row with
    [line1_x1=1, line1_y1=2, line1_x2=3, line1_y2=4] and an empty [line2_x1]
    gives the single segment [(1, 2, 3, 4)]. *)
Theorem group_is_the_leading_populated_slots :
  (forall (path : string) (csv_file : Csv.table) (groups : list (list vec4)),
     read_labelled_lines path csv_file = Ok groups ->
     length groups = length (Csv.DictReader csv_file) /\
     forall r line group,
       Csv.DictReader csv_file !! r = Some line ->
       groups !! r = Some group ->
       (1 <= length group <= 4)%nat /\
       (forall j ls,
          group !! j = Some ls ->
          exists tx1 ty1 tx2 ty2 p1x p1y p2x p2y,
            line !! slot_key (S j) "_x1" = Some (Some tx1) /\
            line !! slot_key (S j) "_y1" = Some (Some ty1) /\
            line !! slot_key (S j) "_x2" = Some (Some tx2) /\
            line !! slot_key (S j) "_y2" = Some (Some ty2) /\
            tx1 <> "" /\
            float tx1 = Num p1x /\ float ty1 = Num p1y /\
            float tx2 = Num p2x /\ float ty2 = Num p2y /\
            ls = (p1x, p1y, p2x, p2y)) /\
       ((length group < 4)%nat ->
        line !! slot_key (S (length group)) "_x1" = Some (Some "")))
  /\
  (forall path : string,
     read_line path
       (Csv.dict_of_row
          ["line1_x1"; "line1_y1"; "line1_x2"; "line1_y2"; "line2_x1"]
          ["1"; "2"; "3"; "4"; ""])
     = Ok [(1, 2, 3, 4)%R]).
Proof.
  split.
  - intros path csv_file groups Hread.
    apply read_labelled_lines_ok in Hread.
    split; [symmetry; exact (Forall2_length _ _ _ Hread)|].
    intros r line group Hline Hgroup.
    destruct (Forall2_lookup_l _ _ _ _ _ Hread Hline) as (g & Hg & Hrow).
    assert (g = group) by congruence. subst g.
    apply read_line_ok in Hrow as (Hlen & Hseg & Hstop).
    split; [exact Hlen|]. split.
    + intros j ls Hj. apply (read_slot_segment path line (S j) ls). auto.
    + intros Hlt. apply (read_slot_break path line). auto.
  - intros path. apply read_line_ok. simpl length.
    split; [lia|]. split.
    + intros [|j] ls Hj; [|discriminate]. injection Hj as <-.
      apply read_slot_segment.
      exists "1", "2", "3", "4", 1%R, 2%R, 3%R, 4%R.
      repeat split; try (vm_compute; reflexivity); try discriminate;
        unfold float;
        match goal with
        | |- context [read_literal ?t] =>
            let l := eval vm_compute in (read_literal t) in
            change (read_literal t) with l
        end; cbv beta iota; f_equal; simpl; lra.
    + intros _. apply read_slot_break. vm_compute. reflexivity.
Qed.

End LinesFile.

(* ------------------------------------------------------------------------- *)
(** ** Assembling a record *)
(* ------------------------------------------------------------------------- *)

Import Py Np NYUVP.

Section Assembly.
Variable fs : string -> option Csv.table.

Lemma count_app (e : event) (l1 l2 : list event) :
  count e (l1 ++ l2) = (count e l1 + count e l2)%nat.
Proof. unfold count. now rewrite filter_app, length_app. Qed.

Lemma count_cons (e x : event) (l : list event) :
  count e (x :: l) = ((if decide (e = x) then 1 else 0) + count e l)%nat.
Proof. unfold count. rewrite filter_cons. destruct (decide (e = x)); reflexivity. Qed.

Lemma count_nil (e : event) : count e [] = 0%nat.
Proof. reflexivity. Qed.

Lemma assemble_set_dataset (o : obj) (ds : list (option nat)) (i : Z) :
  assemble fs (set_dataset o ds) i = assemble fs o i.
Proof. reflexivity. Qed.

Ltac count_events :=
  rewrite ?count_app, ?count_cons, ?count_nil;
  repeat match goal with
         | |- context [decide (?a = ?b)] => destruct (decide (a = b)); try congruence
         end;
  try reflexivity.

(** Assembling [i] reads nothing of another scene from the archive, and
    nothing at all without an archive. *)
Lemma assemble_reads_other (o : obj) (i k : Z) :
  k <> i \/ data_mat o = None ->
  count (LoadImage k) (events (assemble fs o i)) = 0%nat /\
  count (LoadDepth k) (events (assemble fs o i)) = 0%nat.
Proof.
  intros Hk.
  unfold assemble, open, lift, emit.
  unfold mbind, traced_bind, traced_then, mret, traced_ret.
  destruct (data_mat o) as [mat|]; simpl.
  - destruct Hk as [Hk|]; [|discriminate].
    repeat (case_match; simpl); split; count_events.
  - repeat (case_match; simpl); split; count_events.
Qed.

Lemma assemble_ok (o : obj) (i : Z) (d : Datum) :
  outcome (assemble fs o i) = Ok d ->
  exists lines_path lines_file vps_path vps_file vps,
    Py.getitem (labelled_line_files o) i = Ok lines_path /\
    fs lines_path = Some lines_file /\
    read_labelled_lines lines_path lines_file = Ok (labelled_lines d) /\
    Py.getitem (vps_files o) i = Ok vps_path /\
    fs vps_path = Some vps_file /\
    read_vps (Kinv o) vps_file = Ok (vps, VDs d) /\
    VPs d = normalise_VPs vps /\
    id d = i /\
    match data_mat o with
    | None => image d = None /\ depth d = None
    | Some mat =>
        exists im dp,
          Py.getitem (images mat) i = Ok im /\
          Py.getitem (depths mat) i = Ok dp /\
          image d = Some im /\ depth d = Some (expand_dims dp)
    end /\
    events (assemble fs o i)
    = match data_mat o with Some _ => [LoadImage i] | None => [] end
      ++ [OpenFile lines_path; OpenFile vps_path]
      ++ match data_mat o with Some _ => [LoadDepth i] | None => [] end.
Proof.
  unfold assemble, open, lift, emit.
  unfold mbind, traced_bind, traced_then, mret, traced_ret.
  destruct (data_mat o) as [mat|]; simpl.
  - destruct (getitem (images mat) i) as [im|] eqn:Him; simpl; [|discriminate].
    destruct (getitem (labelled_line_files o) i) as [lines_path|] eqn:Hlp; simpl; [|discriminate].
    destruct (fs lines_path) as [lines_file|] eqn:Hlf; simpl; [|discriminate].
    destruct (read_labelled_lines lines_path lines_file) as [groups|] eqn:Hg; simpl; [|discriminate].
    destruct (getitem (vps_files o) i) as [vps_path|] eqn:Hvp; simpl; [|discriminate].
    destruct (fs vps_path) as [vps_file|] eqn:Hvf; simpl; [|discriminate].
    destruct (read_vps (Kinv o) vps_file) as [[vps vds]|] eqn:Hv; simpl; [|discriminate].
    destruct (getitem (depths mat) i) as [dp|] eqn:Hdp; simpl; [|discriminate].
    intros [= <-]. simpl.
    exists lines_path, lines_file, vps_path, vps_file, vps.
    repeat split; try assumption; try reflexivity.
    exists im, dp. auto.
  - destruct (getitem (labelled_line_files o) i) as [lines_path|] eqn:Hlp; simpl; [|discriminate].
    destruct (fs lines_path) as [lines_file|] eqn:Hlf; simpl; [|discriminate].
    destruct (read_labelled_lines lines_path lines_file) as [groups|] eqn:Hg; simpl; [|discriminate].
    destruct (getitem (vps_files o) i) as [vps_path|] eqn:Hvp; simpl; [|discriminate].
    destruct (fs vps_path) as [vps_file|] eqn:Hvf; simpl; [|discriminate].
    destruct (read_vps (Kinv o) vps_file) as [[vps vds]|] eqn:Hv; simpl; [|discriminate].
    intros [= <-]. simpl.
    exists lines_path, lines_file, vps_path, vps_file, vps.
    repeat split; try assumption; try reflexivity.
Qed.

Lemma assemble_id (o : obj) (i : Z) (d : Datum) :
  outcome (assemble fs o i) = Ok d -> id d = i.
Proof.
  intros H.
  apply assemble_ok in H as (? & ? & ? & ? & ? & _ & _ & _ & _ & _ & _ & _ & H & _).
  exact H.
Qed.

Lemma assemble_reads_own (o : obj) (i : Z) :
  data_mat o <> None -> is_ok (outcome (assemble fs o i)) = true ->
  count (LoadImage i) (events (assemble fs o i)) = 1%nat /\
  count (LoadDepth i) (events (assemble fs o i)) = 1%nat.
Proof.
  intros Hmat Hok.
  destruct (outcome (assemble fs o i)) as [d|] eqn:E; [|discriminate].
  apply assemble_ok in E
    as (p1 & ? & p2 & ? & ? & _ & _ & _ & _ & _ & _ & _ & _ & _ & ->).
  destruct (data_mat o); [|congruence].
  split; count_events.
Qed.

End Assembly.


(* ------------------------------------------------------------------------- *)
(** ** The cache: what holds of every reachable state *)
(* ------------------------------------------------------------------------- *)

Section Cache.
Variable fs : string -> option Csv.table.
Variables glob_vps glob_lines : list string.
Variable keep_data_in_memory : bool.
Variable mat_file : option Mat.
Variable borders : bool.

Let o : obj := __init__ glob_vps glob_lines keep_data_in_memory mat_file borders.

Lemma length_set_ids : length (set_ids o) = 1449%nat.
Proof. unfold o, __init__; cbn [set_ids]. now rewrite length_range. Qed.

Lemma lookup_set_ids (i : nat) (k : Z) :
  set_ids o !! i = Some k <-> (i < 1449)%nat /\ k = Z.of_nat i.
Proof.
  split.
  - intros H. pose proof (lookup_lt_Some _ _ _ H) as Hlt.
    rewrite length_set_ids in Hlt. split; [exact Hlt|].
    unfold o, __init__ in H; cbn [set_ids] in H.
    rewrite lookup_range in H by lia. injection H as <-. lia.
  - intros [Hlt ->]. unfold o, __init__; cbn [set_ids].
    rewrite lookup_range by lia. f_equal.
Qed.

Lemma consistent_start : consistent fs o (start o).
Proof.
  split; unfold start; cbn [self heap log].
  - reflexivity.
  - unfold o, __init__; cbn [dataset set_ids]. now rewrite length_map.
  - intros a d H. discriminate.
  - intros i a H. exfalso.
    unfold o, __init__ in H; cbn [dataset] in H.
    rewrite list_lookup_fmap in H.
    destruct (range 0 1449 !! i); discriminate.
  - intros i a k H. exfalso.
    unfold o, __init__ in H; cbn [dataset] in H.
    rewrite list_lookup_fmap in H.
    destruct (range 0 1449 !! i); discriminate.
  - intros. split; reflexivity.
  - intros. split; reflexivity.
Qed.

(** What one call does, case by case. *)
Lemma getitem_cases (key : Z) (st : state) :
  consistent fs o st ->
  match norm_index 1449 key with
  | None => __getitem__ fs key st = (Raise IndexError, st)
  | Some i =>
      match dataset (self st) !! i with
      | None => False
      | Some (Some a) => __getitem__ fs key st = (Ok a, st)
      | Some None =>
          let run := assemble fs o (Z.of_nat i) in
          match outcome run with
          | Raise e =>
              __getitem__ fs key st
              = (Raise e,
                 {| self := self st; heap := heap st;
                    log := log st ++ events run |})
          | Ok d =>
              __getitem__ fs key st
              = (Ok (length (heap st)),
                 {| self := if keep_in_mem o
                            then set_dataset (self st)
                                   (<[i := Some (length (heap st))]> (dataset (self st)))
                            else self st;
                    heap := heap st ++ [d];
                    log := log st ++ events run |})
          end
      end
  end.
Proof.
  intros Hc.
  pose proof (same_config _ _ _ Hc) as Hself.
  pose proof (same_length _ _ _ Hc) as Hlen. rewrite length_set_ids in Hlen.
  assert (Hids : set_ids (self st) = set_ids o) by (rewrite Hself; reflexivity).
  assert (Hkeep : keep_in_mem (self st) = keep_in_mem o) by (rewrite Hself; reflexivity).
  assert (Hasm : forall i, assemble fs (self st) i = assemble fs o i)
    by (intros i; rewrite Hself; reflexivity).
  unfold __getitem__. rewrite Hids, Hkeep.
  destruct (norm_index 1449 key) as [i|] eqn:Hn.
  - pose proof (norm_index_lt _ _ _ Hn) as Hlt.
    assert (Hid : getitem (set_ids o) key = Ok (Z.of_nat i)).
    { apply getitem_ok. exists i. rewrite length_set_ids. split; [exact Hn|].
      apply lookup_set_ids. auto. }
    rewrite Hid.
    destruct (lookup_lt_is_Some_2 (dataset (self st)) i) as [slot Hslot]; [lia|].
    rewrite Hslot.
    assert (Hget : getitem (dataset (self st)) key = Ok slot).
    { apply getitem_ok. exists i. rewrite Hlen. auto. }
    rewrite Hget. destruct slot as [a|]; [reflexivity|].
    rewrite Hasm. cbv zeta.
    destruct (outcome (assemble fs o (Z.of_nat i))) as [d|e]; [|reflexivity].
    destruct (keep_in_mem o); [|reflexivity].
    unfold setitem. rewrite Hlen, Hn. reflexivity.
  - rewrite getitem_out; [reflexivity|]. now rewrite length_set_ids.
Qed.

Lemma lookup_heap_snoc (h : list Datum) (d d' : Datum) (a : nat) :
  (h ++ [d]) !! a = Some d' ->
  h !! a = Some d' \/ (a = length h /\ d' = d).
Proof.
  intros H. apply lookup_app_Some in H as [H|[Hge H]]; [auto|].
  right. destruct (a - length h)%nat as [|n] eqn:E; simpl in H; [|discriminate].
  injection H as <-. split; [lia|reflexivity].
Qed.

Lemma consistent_step (key : Z) (st : state) :
  consistent fs o st -> consistent fs o (__getitem__ fs key st).2.
Proof.
  intros Hc. pose proof (getitem_cases key st Hc) as Hget.
  destruct (norm_index 1449 key) as [i|] eqn:Hn; [|rewrite Hget; exact Hc].
  destruct (dataset (self st) !! i) as [[a|]|] eqn:Hslot;
    [rewrite Hget; exact Hc| |contradiction].
  cbv zeta in Hget.
  pose proof (norm_index_lt _ _ _ Hn) as Hi.
  destruct Hc as [Hself Hlen Hheap Hfilled Honce Hnever Hnone].
  pose proof Hlen as Hlen'. rewrite length_set_ids in Hlen'.
  assert (Hother : forall j k, j <> i -> set_ids o !! j = Some k ->
            count (LoadImage k) (events (assemble fs o (Z.of_nat i))) = 0%nat /\
            count (LoadDepth k) (events (assemble fs o (Z.of_nat i))) = 0%nat).
  { intros j k Hj Hk. apply lookup_set_ids in Hk as [_ ->].
    apply assemble_reads_other. left. lia. }
  destruct (outcome (assemble fs o (Z.of_nat i))) as [d|e] eqn:Hrun;
    rewrite Hget; clear Hget; cbn [snd].
  - (* the record is assembled *)
    pose proof (assemble_id _ _ _ _ Hrun) as Hid.
    assert (Hheap' : forall a d', (heap st ++ [d]) !! a = Some d' ->
              outcome (assemble fs o (id d')) = Ok d').
    { intros a d' H. apply lookup_heap_snoc in H as [H|[_ ->]]; [eauto|].
      now rewrite Hid. }
    destruct (keep_in_mem o) eqn:Hkeep.
    + split; cbn [self heap log dataset set_dataset].
      * rewrite Hself at 1. reflexivity.
      * now rewrite length_insert.
      * exact Hheap'.
      * intros j a Hj. split; [exact Hkeep|].
        destruct (decide (j = i)) as [->|Hne].
        -- rewrite list_lookup_insert_eq in Hj by lia. injection Hj as <-.
           exists d. split.
           ++ rewrite lookup_app_r by lia. now rewrite Nat.sub_diag.
           ++ apply lookup_set_ids. auto.
        -- rewrite list_lookup_insert_ne in Hj by congruence.
           destruct (Hfilled j a Hj) as (_ & d' & Hd' & Hk).
           exists d'. split; [|exact Hk]. now apply lookup_app_l_Some.
      * intros j a k Hj Hk Hmat. rewrite !count_app.
        destruct (decide (j = i)) as [->|Hne].
        -- destruct (Hnever i k eq_refl Hslot Hk) as [H1 H2].
           { apply lookup_set_ids in Hk as [_ ->]. now rewrite Hrun. }
           apply lookup_set_ids in Hk as [_ ->].
           destruct (assemble_reads_own fs o (Z.of_nat i) Hmat) as [H3 H4].
           { now rewrite Hrun. }
           lia.
        -- rewrite list_lookup_insert_ne in Hj by congruence.
           destruct (Honce j a k Hj Hk Hmat) as [H1 H2].
           destruct (Hother j k Hne Hk) as [H3 H4]. lia.
      * intros j k _ Hj Hk Hok. rewrite !count_app.
        destruct (decide (j = i)) as [->|Hne].
        { rewrite list_lookup_insert_eq in Hj by lia. discriminate. }
        rewrite list_lookup_insert_ne in Hj by congruence.
        destruct (Hnever j k eq_refl Hj Hk Hok) as [H1 H2].
        destruct (Hother j k Hne Hk) as [H3 H4]. lia.
      * intros k Hmat. rewrite !count_app.
        destruct (Hnone k Hmat) as [H1 H2].
        destruct (assemble_reads_other fs o (Z.of_nat i) k (or_intror Hmat)) as [H3 H4].
        lia.
    + split; cbn [self heap log].
      * exact Hself.
      * exact Hlen.
      * exact Hheap'.
      * intros j a Hj. destruct (Hfilled j a Hj) as [? _]. congruence.
      * intros j a k Hj. destruct (Hfilled j a Hj) as [? _]. congruence.
      * intros j k ?. congruence.
      * intros k Hmat. rewrite !count_app.
        destruct (Hnone k Hmat) as [H1 H2].
        destruct (assemble_reads_other fs o (Z.of_nat i) k (or_intror Hmat)) as [H3 H4].
        lia.
  - (* assembling raised *)
    split; cbn [self heap log].
    + exact Hself.
    + exact Hlen.
    + exact Hheap.
    + exact Hfilled.
    + intros j a k Hj Hk Hmat. rewrite !count_app.
      assert (Hne : j <> i) by congruence.
      destruct (Honce j a k Hj Hk Hmat) as [H1 H2].
      destruct (Hother j k Hne Hk) as [H3 H4]. lia.
    + intros j k Hkeep Hj Hk Hok. rewrite !count_app.
      assert (Hne : j <> i).
      { intros ->. apply lookup_set_ids in Hk as [_ ->].
        rewrite Hrun in Hok. discriminate. }
      destruct (Hnever j k Hkeep Hj Hk Hok) as [H1 H2].
      destruct (Hother j k Hne Hk) as [H3 H4]. lia.
    + intros k Hmat. rewrite !count_app.
      destruct (Hnone k Hmat) as [H1 H2].
      destruct (assemble_reads_other fs o (Z.of_nat i) k (or_intror Hmat)) as [H3 H4].
      lia.
Qed.

Lemma reachable_consistent (st : state) :
  reachable fs o st -> consistent fs o st.
Proof.
  induction 1 as [|st key _ IH]; [apply consistent_start|].
  now apply consistent_step.
Qed.

Lemma later_reachable (st st' : state) :
  reachable fs o st -> later fs st st' -> reachable fs o st'.
Proof.
  intros Hst. induction 1 as [|st' key _ IH]; [exact Hst|].
  now constructor.
Qed.
(** A call that returns an address returns the address of a record on the
    heap, and that record is what assembling the scene of the key gives. *)
Lemma getitem_returns (key : Z) (st : state) (a : nat) :
  consistent fs o st ->
  (__getitem__ fs key st).1 = Ok a ->
  exists i d,
    norm_index 1449 key = Some i /\
    heap (__getitem__ fs key st).2 !! a = Some d /\
    outcome (assemble fs o (Z.of_nat i)) = Ok d.
Proof.
  intros Hc Hret.
  pose proof (getitem_cases key st Hc) as Hget.
  destruct (norm_index 1449 key) as [i|] eqn:Hn;
    [|rewrite Hget in Hret; discriminate].
  destruct (dataset (self st) !! i) as [[a'|]|] eqn:Hslot; [| |contradiction].
  - rewrite Hget in Hret |- *. injection Hret as ->. cbn [snd].
    destruct (cache_filled _ _ _ Hc i a Hslot) as (_ & d & Hd & Hk).
    exists i, d. split; [reflexivity|]. split; [exact Hd|].
    apply lookup_set_ids in Hk as [_ Hk].
    rewrite <- Hk. exact (heap_assembled _ _ _ Hc a d Hd).
  - cbv zeta in Hget.
    destruct (outcome (assemble fs o (Z.of_nat i))) as [d|e] eqn:Hrun;
      rewrite Hget in Hret |- *; [|discriminate].
    injection Hret as <-. cbn [snd heap].
    exists i, d. split; [reflexivity|]. split; [|exact Hrun].
    rewrite lookup_app_r by lia. now rewrite Nat.sub_diag.
Qed.

(** A call that raises leaves the heap and the cache as they were. *)
Lemma getitem_raises (key : Z) (st : state) (e : exn) :
  consistent fs o st ->
  (__getitem__ fs key st).1 = Raise e ->
  self (__getitem__ fs key st).2 = self st /\
  heap (__getitem__ fs key st).2 = heap st.
Proof.
  intros Hc Hret.
  pose proof (getitem_cases key st Hc) as Hget.
  destruct (norm_index 1449 key) as [i|] eqn:Hn;
    [|rewrite Hget; auto].
  destruct (dataset (self st) !! i) as [[a'|]|] eqn:Hslot; [| |contradiction].
  - rewrite Hget. auto.
  - cbv zeta in Hget.
    destruct (outcome (assemble fs o (Z.of_nat i))) as [d|e'] eqn:Hrun;
      rewrite Hget in Hret |- *; [discriminate|]. auto.
Qed.

(** The heap only grows and a filled slot stays as it is. *)
Lemma getitem_grows (key : Z) (st : state) :
  consistent fs o st ->
  heap st `prefix_of` heap (__getitem__ fs key st).2 /\
  (forall i a, dataset (self st) !! i = Some (Some a) ->
               dataset (self (__getitem__ fs key st).2) !! i = Some (Some a)).
Proof.
  intros Hc.
  pose proof (getitem_cases key st Hc) as Hget.
  destruct (norm_index 1449 key) as [i|] eqn:Hn;
    [|rewrite Hget; auto].
  destruct (dataset (self st) !! i) as [[a'|]|] eqn:Hslot; [| |contradiction].
  - rewrite Hget. auto.
  - cbv zeta in Hget.
    destruct (outcome (assemble fs o (Z.of_nat i))) as [d|e'] eqn:Hrun;
      rewrite Hget; cbn [snd heap self]; [|auto].
    split; [now apply prefix_app_r|].
    intros j a Hj. destruct (keep_in_mem o); [|exact Hj].
    cbn [dataset set_dataset].
    rewrite list_lookup_insert_ne; [exact Hj|]. congruence.
Qed.

Lemma later_consistent (st st' : state) :
  consistent fs o st -> later fs st st' -> consistent fs o st'.
Proof.
  intros Hc. induction 1 as [|st' key _ IH]; [exact Hc|].
  now apply consistent_step.
Qed.

Lemma later_grows (st st' : state) :
  consistent fs o st -> later fs st st' ->
  heap st `prefix_of` heap st' /\
  (forall i a, dataset (self st) !! i = Some (Some a) ->
               dataset (self st') !! i = Some (Some a)).
Proof.
  intros Hc. induction 1 as [|st' key Hl [IH1 IH2]]; [auto|].
  pose proof (later_consistent _ _ Hc Hl) as Hc'.
  destruct (getitem_grows key st' Hc') as [H1 H2].
  split; [now transitivity (heap st')|]. auto.
Qed.


(** The two arrays of an assembled record, row by row of the vps file. *)
Lemma assembled_rows (k : Z) (d : Datum) :
  outcome (assemble fs o k) = Ok d ->
  exists vps_path header rows,
    Py.getitem (vps_files o) k = Ok vps_path /\
    fs vps_path = Some (header :: rows) /\
    rows <> [] /\
    length (VPs d) = length rows /\
    length (VDs d) = length rows /\
    (forall i row, rows !! i = Some row ->
       exists tx ty x y,
         row !! 1%nat = Some tx /\ row !! 2%nat = Some ty /\
         float tx = Num x /\ float ty = Num y /\
         VDs d !! i = Some (view_direction (inv K) (x, y, 1%R)) /\
         VPs d !! i = Some (idiv (x, y, 1%R) (norm (x, y, 1%R)))).
Proof.
  intros H.
  apply assemble_ok in H
    as (lp & lf & vps_path & vps_file & vps
        & _ & _ & _ & Hpath & Hfile & Hread & Hvps & _).
  change (Kinv o) with (inv K) in Hread.
  apply read_vps_ok in Hread as (header & rows & -> & Hne & Hall & Hvds).
  exists vps_path, header, rows.
  rewrite Hvps, Hvds, normalise_VPs_map, !length_map.
  pose proof (Forall2_length _ _ _ Hall) as Hlen.
  split; [exact Hpath|]. split; [exact Hfile|]. split; [exact Hne|].
  split; [now symmetry|]. split; [now symmetry|].
  intros i row Hrow.
  destruct (Forall2_lookup_l _ _ _ _ _ Hall Hrow) as (vp & Hvp & Hparse).
  apply read_vp_ok in Hparse as (tx & ty & x & y & H1 & H2 & Hx & Hy & ->).
  exists tx, ty, x, y.
  rewrite !list_lookup_fmap, Hvp. simpl. auto 10.
Qed.




Lemma length_dataset (st : state) :
  consistent fs o st -> length (dataset (self st)) = 1449%nat.
Proof. intros Hc. rewrite (same_length _ _ _ Hc). apply length_set_ids. Qed.

Lemma set_ids_self (st : state) :
  consistent fs o st -> set_ids (self st) = set_ids o.
Proof. intros Hc. rewrite (same_config _ _ _ Hc). reflexivity. Qed.

(** A negative ordinal within reach is the ordinal counted from the end. *)
Lemma norm_index_wrap (n : nat) (key : Z) :
  - Z.of_nat n <= key < 0 ->
  norm_index n key = norm_index n (key + Z.of_nat n).
Proof.
  intros H. rewrite norm_index_neg by lia. rewrite norm_index_nonneg by lia.
  f_equal. lia.
Qed.

(** C3, as the code has it.  In every reachable state [__len__] is 1449;
    an ordinal from 1449 on, or below -1449, raises [IndexError] and leaves
    the state alone, so ordinal 1449 does; a negative ordinal from -1449 on
    does not raise for being negative: it is Python's index from the end,
    so that [self[-1]] is [self[1448]]. *)
Theorem ordinals_index_like_a_python_list (st : state) :
  reachable fs o st ->
  __len__ (self st) = 1449 /\
  (forall key, key < -1449 \/ 1449 <= key ->
               __getitem__ fs key st = (Raise IndexError, st)) /\
  __getitem__ fs 1449 st = (Raise IndexError, st) /\
  (forall key, -1449 <= key < 0 ->
               __getitem__ fs key st = __getitem__ fs (key + 1449) st) /\
  __getitem__ fs (-1) st = __getitem__ fs 1448 st.
Proof.
  intros Hreach. pose proof (reachable_consistent st Hreach) as Hc.
  pose proof (length_dataset st Hc) as Hlen.
  assert (Hout : forall key, key < -1449 \/ 1449 <= key ->
            __getitem__ fs key st = (Raise IndexError, st)).
  { intros key Hkey. pose proof (getitem_cases key st Hc) as Hget.
    rewrite norm_index_out in Hget by (simpl; lia). exact Hget. }
  assert (Hwrap : forall key, -1449 <= key < 0 ->
            __getitem__ fs key st = __getitem__ fs (key + 1449) st).
  { intros key Hkey. unfold __getitem__, getitem, setitem.
    rewrite (set_ids_self st Hc), length_set_ids, Hlen.
    rewrite (norm_index_wrap 1449 key) by (simpl; lia). reflexivity. }
  split; [unfold __len__; rewrite Hlen; reflexivity|].
  split; [exact Hout|]. split; [apply Hout; lia|].
  split; [exact Hwrap|]. apply (Hwrap (-1)). lia.
Qed.

(** C5.  For an ordinal [key] with [0 <= key < 1449], the record that
    [__getitem__] returns has [key] in its field [id]. *)
Theorem record_id_is_the_ordinal (key : Z) (st : state) (a : nat) :
  reachable fs o st ->
  0 <= key < 1449 ->
  (__getitem__ fs key st).1 = Ok a ->
  exists d, heap (__getitem__ fs key st).2 !! a = Some d /\ id d = key.
Proof.
  intros Hreach Hkey Hret.
  pose proof (reachable_consistent st Hreach) as Hc.
  destruct (getitem_returns key st a Hc Hret) as (i & d & Hn & Hd & Hrun).
  exists d. split; [exact Hd|].
  rewrite (assemble_id _ _ _ _ Hrun).
  rewrite norm_index_nonneg in Hn by (simpl; lia). injection Hn as <-. lia.
Qed.


(** Without caching no slot is ever filled. *)
Lemma slots_stay_empty (st : state) (i : nat) :
  consistent fs o st -> keep_in_mem o = false -> (i < 1449)%nat ->
  dataset (self st) !! i = Some None.
Proof.
  intros Hc Hkeep Hi. pose proof (length_dataset st Hc) as Hlen.
  destruct (lookup_lt_is_Some_2 (dataset (self st)) i) as [[a|] Hslot];
    [lia| |exact Hslot].
  destruct (cache_filled _ _ _ Hc i a Hslot) as [Htrue _]. congruence.
Qed.

(** A call on a filled slot returns what the slot holds and changes
    nothing. *)
Lemma getitem_hit (key : Z) (st : state) (a : nat) :
  consistent fs o st -> 0 <= key < 1449 ->
  dataset (self st) !! Z.to_nat key = Some (Some a) ->
  __getitem__ fs key st = (Ok a, st).
Proof.
  intros Hc Hkey Hslot. pose proof (getitem_cases key st Hc) as Hget.
  rewrite norm_index_nonneg in Hget by (simpl; lia).
  now rewrite Hslot in Hget.
Qed.

(** A call on an empty slot that returns has built a new record. *)
Lemma getitem_miss (key : Z) (st : state) (a : nat) :
  consistent fs o st -> 0 <= key < 1449 ->
  dataset (self st) !! Z.to_nat key = Some None ->
  (__getitem__ fs key st).1 = Ok a ->
  a = length (heap st) /\
  exists d,
    outcome (assemble fs o key) = Ok d /\
    heap (__getitem__ fs key st).2 = heap st ++ [d] /\
    log (__getitem__ fs key st).2 = log st ++ events (assemble fs o key) /\
    dataset (self (__getitem__ fs key st).2)
    = if keep_in_mem o then <[Z.to_nat key := Some a]> (dataset (self st))
      else dataset (self st).
Proof.
  intros Hc Hkey Hslot Hret. pose proof (getitem_cases key st Hc) as Hget.
  rewrite norm_index_nonneg in Hget by (simpl; lia).
  rewrite Hslot, Z2Nat.id in Hget by lia. cbv zeta in Hget.
  destruct (outcome (assemble fs o key)) as [d|e] eqn:Hrun;
    rewrite Hget in Hret |- *; [|discriminate].
  injection Hret as <-. split; [reflexivity|].
  exists d. cbn [snd heap log self].
  repeat split. destruct (keep_in_mem o); reflexivity.
Qed.

(** C6.  Take an ordinal [key] with [0 <= key < 1449] and a call that
    returns the record at address [a].

    With caching: if the slot was empty (a first call) the record is newly
    assembled, put on the heap at a fresh address and stored in slot [key];
    in any case slot [key] holds [a] afterwards, and every later call for
    [key] returns the same address [a] and changes nothing: no file is
    opened, nothing is built.

    Without caching: the call assembles a new record at a fresh address,
    every slot is still empty afterwards, and every later call for [key] that
    returns assembles again and returns another address whose record has the
    same value. *)
Theorem cached_object_is_reused_uncached_is_rebuilt
    (key : Z) (st : state) (a : nat) :
  reachable fs o st ->
  0 <= key < 1449 ->
  (__getitem__ fs key st).1 = Ok a ->
  let st1 := (__getitem__ fs key st).2 in
  (keep_data_in_memory = true ->
     (dataset (self st) !! Z.to_nat key = Some None ->
        a = length (heap st) /\
        exists d, outcome (assemble fs o key) = Ok d /\
                  heap st1 = heap st ++ [d] /\
                  log st1 = log st ++ events (assemble fs o key)) /\
     dataset (self st1) !! Z.to_nat key = Some (Some a) /\
     (forall st2, later fs st1 st2 -> __getitem__ fs key st2 = (Ok a, st2)))
  /\
  (keep_data_in_memory = false ->
     a = length (heap st) /\
     (exists d, outcome (assemble fs o key) = Ok d /\
                heap st1 = heap st ++ [d] /\
                log st1 = log st ++ events (assemble fs o key)) /\
     (forall i, (i < 1449)%nat -> dataset (self st1) !! i = Some None) /\
     (forall st2 a2,
        later fs st1 st2 ->
        (__getitem__ fs key st2).1 = Ok a2 ->
        let st3 := (__getitem__ fs key st2).2 in
        a2 <> a /\
        (exists d, heap st3 !! a = Some d /\ heap st3 !! a2 = Some d) /\
        (exists d, heap st3 = heap st2 ++ [d]) /\
        log st3 = log st2 ++ events (assemble fs o key))).
Proof.
  intros Hreach Hkey Hret st1.
  pose proof (reachable_consistent st Hreach) as Hc.
  pose proof (consistent_step key st Hc) as Hc1. fold st1 in Hc1.
  pose proof (length_dataset st Hc) as Hlen.
  assert (Hi : (Z.to_nat key < 1449)%nat) by lia.
  change (keep_in_mem o) with keep_data_in_memory in *.
  split; intros Hkeep.
  - assert (Hfilled : dataset (self st1) !! Z.to_nat key = Some (Some a)).
    { destruct (lookup_lt_is_Some_2 (dataset (self st)) (Z.to_nat key))
        as [[a'|] Hslot]; [lia| |].
      - unfold st1. rewrite (getitem_hit key st a' Hc Hkey Hslot) in Hret |- *.
        injection Hret as <-. exact Hslot.
      - destruct (getitem_miss key st a Hc Hkey Hslot Hret)
          as (_ & d & _ & _ & _ & Hds).
        change (keep_in_mem o) with keep_data_in_memory in Hds.
        unfold st1. rewrite Hds, Hkeep.
        apply list_lookup_insert_eq. lia. }
    split; [|split; [exact Hfilled|]].
    + intros Hslot.
      destruct (getitem_miss key st a Hc Hkey Hslot Hret)
        as (Ha & d & Hrun & Hheap & Hlog & _).
      split; [exact Ha|]. exists d. auto.
    + intros st2 Hlater.
      pose proof (later_consistent st1 st2 Hc1 Hlater) as Hc2.
      destruct (later_grows st1 st2 Hc1 Hlater) as [_ Hkept].
      apply (getitem_hit key st2 a Hc2 Hkey). now apply Hkept.
  - pose proof (slots_stay_empty st (Z.to_nat key) Hc Hkeep Hi) as Hslot.
    destruct (getitem_miss key st a Hc Hkey Hslot Hret)
      as (Ha & d & Hrun & Hheap & Hlog & _).
    split; [exact Ha|]. split; [exists d; auto|].
    split; [intros i Hlt; now apply slots_stay_empty|].
    intros st2 a2 Hlater Hret2 st3.
    pose proof (later_consistent st1 st2 Hc1 Hlater) as Hc2.
    pose proof (slots_stay_empty st2 (Z.to_nat key) Hc2 Hkeep Hi) as Hslot2.
    destruct (getitem_miss key st2 a2 Hc2 Hkey Hslot2 Hret2)
      as (Ha2 & d2 & Hrun2 & Hheap2 & Hlog2 & _).
    fold st3 in Hheap2, Hlog2.
    assert (d2 = d) by congruence. subst d2.
    destruct (later_grows st1 st2 Hc1 Hlater) as [[rest Hrest] _].
    fold st1 in Hheap.
    assert (Ha1 : heap st1 !! a = Some d).
    { rewrite Hheap, Ha, lookup_app_r by lia. now rewrite Nat.sub_diag. }
    assert (Hlt : (a < length (heap st2))%nat).
    { rewrite Hrest, Hheap, !length_app. simpl. lia. }
    split; [lia|]. split; [|split; [exists d; exact Hheap2|exact Hlog2]].
    exists d. split.
    + rewrite Hheap2, Hrest. rewrite <- app_assoc.
      now apply lookup_app_l_Some.
    + rewrite Hheap2, Ha2, lookup_app_r by lia. now rewrite Nat.sub_diag.
Qed.



(** A file that does not parse gives no record: the call raises and the
    heap and the cache stay as they were. *)
Lemma assemble_raises_on_bad_file (k : Z) (path : string) (file : Csv.table)
    (e : exn) :
  (Py.getitem (labelled_line_files o) k = Ok path /\ fs path = Some file /\
   read_labelled_lines path file = Raise e)
  \/ (Py.getitem (vps_files o) k = Ok path /\ fs path = Some file /\
      read_vps (Kinv o) file = Raise e) ->
  is_ok (outcome (assemble fs o k)) = false.
Proof.
  intros H.
  destruct (outcome (assemble fs o k)) as [d|] eqn:Hrun; [|reflexivity].
  apply assemble_ok in Hrun
    as (lp & lf & vp & vf & vps & H1 & H2 & H3 & H4 & H5 & H6 & _).
  destruct H as [(Hp & Hf & Hr)|(Hp & Hf & Hr)]; congruence.
Qed.


End Cache.

(* ------------------------------------------------------------------------- *)
(** ** The theorems at work on the small data directory *)
(* ------------------------------------------------------------------------- *)

Import Py Np NYUVP.



(** Ordinal -1 on the small directory: no exception, the record of scene
    1448. *)
Lemma ordinal_minus_one_returns_scene_1448 :
  (__getitem__ Demo.fs (-1) (start Demo.cached)).1 = Ok 0%nat /\
  option_map id (heap (__getitem__ Demo.fs (-1) (start Demo.cached)).2 !! 0%nat)
  = Some 1448.
Proof. vm_compute. split; reflexivity. Qed.

(** C3, as the code has it, in the first state of the small directory. *)
Lemma ordinals_index_like_a_python_list_demo :
  reachable Demo.fs Demo.cached (start Demo.cached) /\
  __len__ (self (start Demo.cached)) = 1449 /\
  __getitem__ Demo.fs 1449 (start Demo.cached)
  = (Raise IndexError, start Demo.cached) /\
  __getitem__ Demo.fs (-1) (start Demo.cached)
  = __getitem__ Demo.fs 1448 (start Demo.cached).
Proof.
  assert (Hreach : reachable Demo.fs Demo.cached (start Demo.cached))
    by apply reach_start.
  split; [exact Hreach|].
  destruct (ordinals_index_like_a_python_list Demo.fs Demo.all_vps
              Demo.all_lines true None true (start Demo.cached) Hreach)
    as (Hlen & _ & Hover & _ & Hlast).
  auto.
Defined.

(** C5 on scene 7 of the small directory. *)
Lemma record_id_is_the_ordinal_demo :
  reachable Demo.fs Demo.cached (start Demo.cached) /\
  0 <= 7 < 1449 /\
  (__getitem__ Demo.fs 7 (start Demo.cached)).1 = Ok 0%nat /\
  exists d,
    heap (__getitem__ Demo.fs 7 (start Demo.cached)).2 !! 0%nat = Some d /\
    id d = 7.
Proof.
  assert (Hreach : reachable Demo.fs Demo.cached (start Demo.cached))
    by apply reach_start.
  assert (Hkey : 0 <= 7 < 1449) by lia.
  assert (Hret : (__getitem__ Demo.fs 7 (start Demo.cached)).1 = Ok 0%nat)
    by (vm_compute; reflexivity).
  split; [exact Hreach|]. split; [exact Hkey|]. split; [exact Hret|].
  exact (record_id_is_the_ordinal Demo.fs Demo.all_vps Demo.all_lines
           true None true 7 (start Demo.cached) 0%nat Hreach Hkey Hret).
Defined.

(** C6 on scene 0 of the small directory, with and without caching. *)
Lemma cached_object_is_reused_uncached_is_rebuilt_demo :
  (reachable Demo.fs Demo.cached (start Demo.cached) /\
   0 <= 0 < 1449 /\
   (__getitem__ Demo.fs 0 (start Demo.cached)).1 = Ok 0%nat /\
   forall st2,
     later Demo.fs (__getitem__ Demo.fs 0 (start Demo.cached)).2 st2 ->
     __getitem__ Demo.fs 0 st2 = (Ok 0%nat, st2))
  /\
  (reachable Demo.fs Demo.uncached (start Demo.uncached) /\
   (__getitem__ Demo.fs 0 (start Demo.uncached)).1 = Ok 0%nat /\
   forall st2 a2,
     later Demo.fs (__getitem__ Demo.fs 0 (start Demo.uncached)).2 st2 ->
     (__getitem__ Demo.fs 0 st2).1 = Ok a2 ->
     a2 <> 0%nat /\
     exists d,
       heap (__getitem__ Demo.fs 0 st2).2 !! 0%nat = Some d /\
       heap (__getitem__ Demo.fs 0 st2).2 !! a2 = Some d).
Proof.
  assert (Hkey : 0 <= 0 < 1449) by lia.
  split.
  - assert (Hreach : reachable Demo.fs Demo.cached (start Demo.cached))
      by apply reach_start.
    assert (Hret : (__getitem__ Demo.fs 0 (start Demo.cached)).1 = Ok 0%nat)
      by (vm_compute; reflexivity).
    split; [exact Hreach|]. split; [exact Hkey|]. split; [exact Hret|].
    destruct (cached_object_is_reused_uncached_is_rebuilt Demo.fs Demo.all_vps
                Demo.all_lines true None true 0 (start Demo.cached) 0%nat
                Hreach Hkey Hret) as [Hcached _].
    destruct (Hcached eq_refl) as (_ & _ & Hlater). exact Hlater.
  - assert (Hreach : reachable Demo.fs Demo.uncached (start Demo.uncached))
      by apply reach_start.
    assert (Hret : (__getitem__ Demo.fs 0 (start Demo.uncached)).1 = Ok 0%nat)
      by (vm_compute; reflexivity).
    split; [exact Hreach|]. split; [exact Hret|].
    destruct (cached_object_is_reused_uncached_is_rebuilt Demo.fs Demo.all_vps
                Demo.all_lines false None true 0 (start Demo.uncached) 0%nat
                Hreach Hkey Hret) as [_ Huncached].
    destruct (Huncached eq_refl) as (_ & _ & _ & Hlater).
    intros st2 a2 Hl Hret2.
    destruct (Hlater st2 a2 Hl Hret2) as (Hne & Hsame & _). auto.
Defined.






(** C10 on the first data row of the good vps file. *)
Lemma backprojection_norm_is_never_zero_demo :
  exists vp,
    read_vp ["0"; "100.0"; "200.0"] = Ok vp /\
    norm (matvec (inv K) vp) <> 0%R.
Proof.
  destruct backprojection_norm_is_never_zero as (_ & _ & _ & _ & Hrow).
  destruct (read_vp ["0"; "100.0"; "200.0"]) as [vp|] eqn:E;
    [|vm_compute in E; discriminate].
  exists vp. split; [reflexivity|]. exact (Hrow _ _ E).
Defined.

(** C4 on the good labelled_lines file of the small directory. *)
Lemma group_is_the_leading_populated_slots_demo :
  exists groups,
    read_labelled_lines "data/labelled_lines_0000.csv" Demo.lines_table
    = Ok groups /\
    length groups = length (Csv.DictReader Demo.lines_table).
Proof.
  destruct group_is_the_leading_populated_slots as [Hfile _].
  destruct (read_labelled_lines "data/labelled_lines_0000.csv" Demo.lines_table)
    as [groups|] eqn:E; [|vm_compute in E; discriminate].
  exists groups. split; [reflexivity|].
  destruct (Hfile _ _ _ E) as [Hlen _]. exact Hlen.
Defined.

(* ------------------------------------------------------------------------- *)
(** ** More on the geometry *)
(* ------------------------------------------------------------------------- *)

Section Reprojection.
Local Open Scope R_scope.

Lemma matvec_idiv (M : mat3) (v : vec3) (s : R) :
  matvec M (idiv v s) = idiv (matvec M v) s.
Proof.
  destruct M as [[[[a b] c] [[d e] f]] [[g h] i]], v as [[x y] z].
  unfold matvec, idiv, dot, Rdiv. cells; ring.
Qed.

Lemma norm_idiv (v : vec3) (s : R) : 0 < s -> norm (idiv v s) = norm v / s.
Proof.
  intros Hs. unfold norm. rewrite dot_idiv by lra.
  rewrite sqrt_div_alt by nra.
  f_equal. apply sqrt_square. lra.
Qed.

Lemma idiv_idiv (v : vec3) (n s : R) :
  n <> 0 -> s <> 0 -> idiv (idiv v s) (n / s) = idiv v n.
Proof.
  intros Hn Hs. destruct v as [[x y] z]. unfold idiv. cells; field; auto.
Qed.

(** Scaling a point by a positive factor does not change its view
    direction. *)
Lemma view_direction_scale (M : mat3) (v : vec3) (s : R) :
  0 < s -> norm (matvec M v) <> 0 ->
  view_direction M (idiv v s) = view_direction M v.
Proof.
  intros Hs Hn. unfold view_direction.
  rewrite matvec_idiv, norm_idiv by exact Hs.
  apply idiv_idiv; lra.
Qed.


End Reprojection.

(* ------------------------------------------------------------------------- *)
(** ** [rgb2gray] *)
(* ------------------------------------------------------------------------- *)

Section Gray.
Import Nyu.

Lemma for_each_ok {A B} (f : A -> result B) (l : list A) (bs : list B) :
  for_each f l = Ok bs <-> Forall2 (fun a b => f a = Ok b) l bs.
Proof.
  revert bs. induction l as [|a l IH]; intros bs; simpl.
  - split; [intros [= <-]; constructor|intros H; inversion H; reflexivity].
  - split.
    + intros H. apply bind_ok in H as (b & Hb & H).
      apply bind_ok in H as (bs' & Hbs & H). injection H as <-.
      constructor; [exact Hb|]. now apply IH.
    + intros H. inversion H as [|? b ? bs' Hb Hbs]; subst.
      rewrite (bind_step _ _ _ Hb).
      rewrite (bind_step _ _ bs') by now apply IH.
      reflexivity.
Qed.

Lemma for_each_raise {A B} (f : A -> result B) (l : list A) (a : A) (e : exn) :
  a ∈ l -> (forall a', a' ∈ l -> is_ok (f a') = false -> f a' = Raise e) ->
  f a = Raise e -> for_each f l = Raise e.
Proof.
  induction l as [|a' l IH]; intros Hin Hall Ha; [inversion Hin|].
  simpl. destruct (f a') as [b|e'] eqn:E.
  - rewrite (bind_step _ _ b) by reflexivity.
    apply elem_of_cons in Hin as [->|Hin]; [congruence|].
    rewrite (bind_raise _ _ e); [reflexivity|].
    apply IH; [exact Hin| |exact Ha].
    intros x Hx. apply Hall. now right.
  - assert (Raise e' = Raise e) as ->; [|reflexivity].
    rewrite <- E. apply Hall; [now left|]. now rewrite E.
Qed.

Lemma gray_pixel_ok (px : list R) (g : R) :
  gray_pixel px = Ok g <->
  exists r gr b rest,
    px = r :: gr :: b :: rest /\
    g = (0.2989 * r + 0.5870 * gr + 0.1140 * b)%R.
Proof.
  unfold gray_pixel, np_dot, luma.
  destruct px as [|r [|gr [|b rest]]]; simpl; split;
    try discriminate;
    try (intros (? & ? & ? & ? & [=] & _); fail).
  - intros [= <-]. exists r, gr, b, rest. split; [reflexivity|]. lra.
  - intros (r' & gr' & b' & rest' & [= <- <- <- <-] & ->). f_equal. lra.
Qed.

Lemma gray_pixel_raise (px : list R) :
  (length px < 3)%nat ->
  gray_pixel px = Raise (ValueError "shapes not aligned").
Proof.
  unfold gray_pixel, np_dot, luma.
  destruct px as [|r [|gr [|b rest]]]; simpl; intros H; try reflexivity; lia.
Qed.

(** X1.  [rgb2gray] keeps the height and the width of the image; each grey
    value is [0.2989 r + 0.5870 g + 0.1140 b] of the first three channels of
    its pixel, whatever channels follow; and as the three weights add up to
    0.9999, channels between [lo] and [hi] give a grey value between
    [0.9999 lo] and [0.9999 hi]. *)
Theorem rgb2gray_weighs_the_first_three_channels
    (rgb : image_t) (gray : list (list R)) :
  rgb2gray rgb = Ok gray ->
  length gray = length rgb /\
  forall i row grow,
    rgb !! i = Some row -> gray !! i = Some grow ->
    length grow = length row /\
    forall j px g,
      row !! j = Some px -> grow !! j = Some g ->
      exists r gr b rest,
        px = r :: gr :: b :: rest /\
        g = (0.2989 * r + 0.5870 * gr + 0.1140 * b)%R /\
        forall lo hi : R,
          (lo <= r <= hi -> lo <= gr <= hi -> lo <= b <= hi ->
           0.9999 * lo <= g <= 0.9999 * hi)%R.
Proof.
  unfold rgb2gray. intros H. apply for_each_ok in H.
  split; [symmetry; exact (Forall2_length _ _ _ H)|].
  intros i row grow Hrow Hgrow.
  destruct (Forall2_lookup_l _ _ _ _ _ H Hrow) as (grow' & Hg' & Hr).
  assert (grow' = grow) by congruence. subst grow'.
  apply for_each_ok in Hr.
  split; [symmetry; exact (Forall2_length _ _ _ Hr)|].
  intros j px g Hpx Hg.
  destruct (Forall2_lookup_l _ _ _ _ _ Hr Hpx) as (g' & Hg'' & Hp).
  assert (g' = g) by congruence. subst g'.
  apply gray_pixel_ok in Hp as (r & gr & b & rest & -> & ->).
  exists r, gr, b, rest. split; [reflexivity|]. split; [reflexivity|].
  intros lo hi Hr' Hgr Hb. lra.
Qed.


End Gray.

(* ------------------------------------------------------------------------- *)
(** ** [__init__]: the sorted file lists *)
(* ------------------------------------------------------------------------- *)

Section Sorting.

Lemma sort_insert_perm (p : string) (l : list string) :
  sort_insert p l ≡ₚ p :: l.
Proof.
  induction l as [|q l IH]; simpl; [reflexivity|].
  destruct (String.leb p q); [reflexivity|].
  rewrite IH. apply Permutation_swap.
Qed.

Lemma sort_perm (l : list string) : sort l ≡ₚ l.
Proof.
  unfold sort. induction l as [|p l IH]; simpl; [reflexivity|].
  rewrite sort_insert_perm. now rewrite IH.
Qed.

Lemma sort_insert_sorted (p : string) (l : list string) :
  Sorted (fun a b => String.leb a b = true) l ->
  Sorted (fun a b => String.leb a b = true) (sort_insert p l).
Proof.
  induction 1 as [|q l Hl IH Hq]; simpl.
  - repeat constructor.
  - destruct (String.leb p q) eqn:E.
    + constructor; [now constructor|]. now constructor.
    + constructor; [exact IH|].
      assert (Hqp : String.leb q p = true).
      { destruct (String.leb_total p q) as [H|H]; congruence. }
      destruct l as [|q' l]; simpl; [now constructor|].
      destruct (String.leb p q'); constructor; [exact Hqp|].
      now inversion Hq.
Qed.

Lemma sort_sorted (l : list string) :
  Sorted (fun a b => String.leb a b = true) (sort l).
Proof.
  unfold sort. induction l as [|p l IH]; simpl; [constructor|].
  now apply sort_insert_sorted.
Qed.

(** X3.  The two file lists of a new object hold exactly the paths that the
    directory listing gave, each as often as there, in ascending order: every
    path is at most its successor. *)
Theorem file_lists_are_sorted_listings
    (glob_vps glob_lines : list string) (keep : bool) (mat_file : option Mat)
    (borders : bool) :
  let o := __init__ glob_vps glob_lines keep mat_file borders in
  vps_files o ≡ₚ glob_vps /\
  labelled_line_files o ≡ₚ glob_lines /\
  Sorted (fun a b => String.leb a b = true) (vps_files o) /\
  Sorted (fun a b => String.leb a b = true) (labelled_line_files o) /\
  length (vps_files o) = length glob_vps /\
  length (labelled_line_files o) = length glob_lines.
Proof.
  cbn [__init__ vps_files labelled_line_files].
  repeat split; try apply sort_perm; try apply sort_sorted;
    apply Permutation_length, sort_perm.
Qed.

End Sorting.

(* ------------------------------------------------------------------------- *)
(** ** More on the two files *)
(* ------------------------------------------------------------------------- *)

Section MoreFiles.

Lemma getitem_nat_lookup {A} (l : list A) (i : nat) :
  getitem l (Z.of_nat i)
  = match l !! i with Some a => Ok a | None => Raise IndexError end.
Proof.
  destruct (l !! i) as [a|] eqn:E.
  - now apply getitem_nat.
  - destruct (getitem l (Z.of_nat i)) as [a|e] eqn:G.
    + apply getitem_nat in G. congruence.
    + now rewrite (getitem_raise _ _ _ G).
Qed.

Lemma read_vp_fields (row row' : list string) :
  row !! 1%nat = row' !! 1%nat -> row !! 2%nat = row' !! 2%nat ->
  read_vp row = read_vp row'.
Proof.
  intros H1 H2. unfold read_vp.
  rewrite (getitem_nat_lookup row 1 : getitem row 1 = _).
  rewrite (getitem_nat_lookup row 2 : getitem row 2 = _).
  rewrite (getitem_nat_lookup row' 1 : getitem row' 1 = _).
  rewrite (getitem_nat_lookup row' 2 : getitem row' 2 = _).
  now rewrite H1, H2.
Qed.

Lemma read_rows_fields (M : mat3) (rows rows' : list (list string)) :
  Forall2 (fun r r' => r !! 1%nat = r' !! 1%nat /\ r !! 2%nat = r' !! 2%nat)
          rows rows' ->
  forall ri vp_list vd_list,
    read_rows M (S ri) rows vp_list vd_list
    = read_rows M (S ri) rows' vp_list vd_list.
Proof.
  induction 1 as [|r r' rows rows' [H1 H2] _ IH]; intros ri vp_list vd_list;
    [reflexivity|].
  simpl. rewrite (read_vp_fields r r' H1 H2).
  destruct (read_vp r') as [vp|e]; [|reflexivity].
  unfold mbind, result_bind, bind. apply IH.
Qed.

(** X6.  Reading a vps file never looks at the header row, and of a data row it
    looks at fields 1 and 2 only: two files whose data rows agree on these
    two fields are read alike, whatever the matrix. *)
Theorem read_vps_looks_at_two_columns
    (M : mat3) (header header' : list string) (rows rows' : list (list string)) :
  Forall2 (fun r r' => r !! 1%nat = r' !! 1%nat /\ r !! 2%nat = r' !! 2%nat)
          rows rows' ->
  read_vps M (header :: rows) = read_vps M (header' :: rows').
Proof.
  intros H. unfold read_vps. simpl.
  now rewrite (read_rows_fields M rows rows' H).
Qed.

Lemma fst_zip_take {A B} (l : list A) (k : list B) :
  (zip l k).*1 = take (length k) l.
Proof.
  rewrite <- (zip_with_take_l _ l k).
  apply fst_zip. rewrite length_take. lia.
Qed.

(** The keys of a row of the [DictReader] are the names of the header. *)
Lemma dict_of_row_None (fieldnames row : list string) (key : string) :
  Csv.dict_of_row fieldnames row !! key = None <-> key ∉ fieldnames.
Proof.
  unfold Csv.dict_of_row.
  assert (Hrest : forall (ks : list string) (d : gmap string (option string)),
            foldl (fun d k => <[k := None]> d) d ks !! key = None
            <-> d !! key = None /\ key ∉ ks).
  { induction ks as [|k ks IH]; intros d; simpl.
    - rewrite elem_of_nil. tauto.
    - rewrite IH, lookup_insert_None, not_elem_of_cons. intuition congruence. }
  assert (Hzip : forall (kvs : list (string * string))
                        (d : gmap string (option string)),
            foldl (fun d kv => <[kv.1 := Some kv.2]> d) d kvs !! key = None
            <-> d !! key = None /\ key ∉ kvs.*1).
  { induction kvs as [|[k v] kvs IH]; intros d; simpl.
    - rewrite elem_of_nil. tauto.
    - rewrite IH, lookup_insert_None, not_elem_of_cons. simpl. intuition congruence. }
  rewrite Hrest, Hzip, lookup_empty.
  rewrite fst_zip_take.
  rewrite <- (take_drop (length row) fieldnames) at 3.
  rewrite not_elem_of_app. tauto.
Qed.

Lemma fold_restval (ks : list string) (key : string) :
  forall d : gmap string (option string),
    foldl (fun d k => <[k := None]> d) d ks !! key
    = if bool_decide (key ∈ ks) then Some None else d !! key.
Proof.
  induction ks as [|k ks IH]; intros d; cbn [foldl].
  - rewrite bool_decide_eq_false_2 by apply not_elem_of_nil. reflexivity.
  - rewrite IH. destruct (bool_decide_reflect (key ∈ ks)) as [Hin|Hnin].
    + rewrite bool_decide_eq_true_2 by (now right). reflexivity.
    + destruct (decide (key = k)) as [->|Hne].
      * rewrite bool_decide_eq_true_2 by (now left).
        now rewrite lookup_insert_eq.
      * rewrite bool_decide_eq_false_2
          by (rewrite not_elem_of_cons; auto).
        now rewrite lookup_insert_ne by congruence.
Qed.

Lemma fold_zip (kvs : list (string * string)) (key val : string) :
  forall d : gmap string (option string),
    NoDup kvs.*1 -> (key, val) ∈ kvs ->
    foldl (fun d kv => <[kv.1 := Some kv.2]> d) d kvs !! key = Some (Some val).
Proof.
  assert (Hkeep : forall (l : list (string * string))
                         (d : gmap string (option string)),
            key ∉ l.*1 ->
            foldl (fun d kv => <[kv.1 := Some kv.2]> d) d l !! key = d !! key).
  { induction l as [|[k v] l IH]; intros d Hnin; simpl; [reflexivity|].
    simpl in Hnin. apply not_elem_of_cons in Hnin as [Hne Hnin].
    rewrite IH by exact Hnin. now rewrite lookup_insert_ne by congruence. }
  induction kvs as [|[k v] kvs IH]; intros d Hnd Hin; [inversion Hin|].
  simpl in Hnd. apply NoDup_cons in Hnd as [Hk Hnd]. simpl.
  apply elem_of_cons in Hin as [[= -> ->]|Hin].
  - rewrite Hkeep by exact Hk. now rewrite lookup_insert_eq.
  - now apply IH.
Qed.

(** A field is found under the name of its column, wherever the column
    stands; a column the row is too short for holds [None]. *)
Lemma dict_of_row_field (fieldnames row : list string) (p : nat)
    (key val : string) :
  NoDup fieldnames -> fieldnames !! p = Some key -> row !! p = Some val ->
  Csv.dict_of_row fieldnames row !! key = Some (Some val).
Proof.
  intros Hnd Hkey Hval. unfold Csv.dict_of_row.
  pose proof (lookup_lt_Some _ _ _ Hval) as Hp.
  rewrite <- (take_drop (length row) fieldnames) in Hnd.
  apply NoDup_app in Hnd as (Htake & Hdisj & _).
  assert (Hin : key ∈ take (length row) fieldnames).
  { apply elem_of_take. eauto. }
  rewrite fold_restval.
  rewrite bool_decide_eq_false_2 by (now apply Hdisj).
  apply fold_zip; [now rewrite fst_zip_take|].
  apply list_elem_of_lookup. exists p.
  apply lookup_zip_with_Some. eauto.
Qed.

Lemma dict_of_row_short (fieldnames row : list string) (p : nat) (key : string) :
  fieldnames !! p = Some key -> (length row <= p)%nat ->
  Csv.dict_of_row fieldnames row !! key = Some None.
Proof.
  intros Hkey Hp. unfold Csv.dict_of_row. rewrite fold_restval.
  rewrite bool_decide_eq_true_2; [reflexivity|].
  apply list_elem_of_lookup. exists (p - length row)%nat.
  rewrite lookup_drop. rewrite <- Hkey. f_equal. lia.
Qed.

(** X8.  A row whose first slot is empty gives no segment, and stacking nothing
    raises: the file is not read, the rows before it notwithstanding. *)
Theorem empty_first_slot_raises
    (path : string) (csv_file : Csv.table)
    (pre : list (gmap string (option string)))
    (line : gmap string (option string))
    (post : list (gmap string (option string))) :
  Csv.DictReader csv_file = pre ++ line :: post ->
  Forall (fun l => is_ok (read_line path l) = true) pre ->
  line !! "line1_x1" = Some (Some "") ->
  read_line path line
  = Raise (ValueError "need at least one array to concatenate") /\
  read_labelled_lines path csv_file
  = Raise (ValueError "need at least one array to concatenate").
Proof.
  intros Hfile Hpre Hx1.
  assert (Hline : read_line path line
                  = Raise (ValueError "need at least one array to concatenate")).
  { unfold read_line. cbn [seq scan_slots].
    rewrite (bind_step _ _ None) by (now apply read_slot_break).
    reflexivity. }
  split; [exact Hline|].
  unfold read_labelled_lines. rewrite Hfile.
  now apply read_lines_raise.
Qed.

(** X9.  Fields are looked up by the name of their column.  With a header free
    of repeated names a field is found wherever its column stands; a slot
    whose [x1] column the header lacks raises [KeyError] with the name of the
    column; and a row too short to reach the [x1] column of a slot raises
    [TypeError], from [float(None)]. *)
Theorem slot_fields_are_found_by_column_name
    (path : string) (fieldnames row : list string) (i : nat) :
  (NoDup fieldnames ->
   forall p key val,
     fieldnames !! p = Some key -> row !! p = Some val ->
     Csv.getitem (Csv.dict_of_row fieldnames row) key = Ok (Some val)) /\
  (slot_key i "_x1" ∉ fieldnames ->
   read_slot path (Csv.dict_of_row fieldnames row) i
   = Raise (KeyError (slot_key i "_x1"))) /\
  (forall p,
     fieldnames !! p = Some (slot_key i "_x1") -> (length row <= p)%nat ->
     read_slot path (Csv.dict_of_row fieldnames row) i = Raise TypeError).
Proof.
  split; [|split].
  - intros Hnd p key val Hkey Hval. apply csv_getitem_ok.
    now apply (dict_of_row_field fieldnames row p).
  - intros Hnin. apply dict_of_row_None with (row := row) in Hnin.
    unfold read_slot, Csv.getitem. rewrite Hnin. reflexivity.
  - intros p Hkey Hp.
    pose proof (dict_of_row_short fieldnames row p _ Hkey Hp) as Hnone.
    unfold read_slot, Csv.getitem. rewrite Hnone. reflexivity.
Qed.

End MoreFiles.

(* ------------------------------------------------------------------------- *)
(** ** More on the calls *)
(* ------------------------------------------------------------------------- *)

Section MoreCalls.
Variable fs : string -> option Csv.table.
Variables glob_vps glob_lines : list string.
Variable keep_data_in_memory : bool.
Variable mat_file : option Mat.
Variable borders : bool.

Let o : obj := __init__ glob_vps glob_lines keep_data_in_memory mat_file borders.

Local Abbreviation consistent_of := (reachable_consistent fs glob_vps glob_lines
  keep_data_in_memory mat_file borders).
Local Abbreviation cases_of := (getitem_cases fs glob_vps glob_lines
  keep_data_in_memory mat_file borders).
Local Abbreviation step_of := (consistent_step fs glob_vps glob_lines
  keep_data_in_memory mat_file borders).
Local Abbreviation returns_of := (getitem_returns fs glob_vps glob_lines
  keep_data_in_memory mat_file borders).
Local Abbreviation later_consistent_of := (later_consistent fs glob_vps glob_lines
  keep_data_in_memory mat_file borders).
Local Abbreviation later_grows_of := (later_grows fs glob_vps glob_lines
  keep_data_in_memory mat_file borders).
Local Abbreviation length_dataset_of := (length_dataset fs glob_vps glob_lines
  keep_data_in_memory mat_file borders).
Local Abbreviation rows_of := (assembled_rows fs glob_vps glob_lines
  keep_data_in_memory mat_file borders).
Local Abbreviation bad_file_of := (assemble_raises_on_bad_file fs glob_vps
  glob_lines keep_data_in_memory mat_file borders).

(** Every call only adds to the log. *)
Lemma getitem_logs (key : Z) (st : state) :
  consistent fs o st -> log st `prefix_of` log (__getitem__ fs key st).2.
Proof.
  intros Hc. pose proof (cases_of key st Hc) as Hget. fold o in Hget.
  destruct (norm_index 1449 key) as [i|]; [|rewrite Hget; reflexivity].
  destruct (dataset (self st) !! i) as [[a|]|]; [| |contradiction].
  - rewrite Hget. reflexivity.
  - cbv zeta in Hget.
    destruct (outcome (assemble fs o (Z.of_nat i)));
      rewrite Hget; cbn [snd log]; now apply prefix_app_r.
Qed.

(** X11.  A call that raises leaves the object and the heap as they were and only
    adds to the log; nothing of the failure is kept, so the same call made
    again reads again and raises the same exception. *)
Theorem raising_call_keeps_nothing (key : Z) (st : state) (e : exn) :
  reachable fs o st ->
  (__getitem__ fs key st).1 = Raise e ->
  let st1 := (__getitem__ fs key st).2 in
  self st1 = self st /\ heap st1 = heap st /\
  log st `prefix_of` log st1 /\
  (__getitem__ fs key st1).1 = Raise e.
Proof.
  intros Hreach Hret st1.
  pose proof (consistent_of st Hreach) as Hc.
  pose proof (step_of key st Hc) as Hc1. fold o st1 in Hc1.
  pose proof (getitem_logs key st Hc) as Hlog. fold st1 in Hlog.
  pose proof (cases_of key st Hc) as Hget. fold o in Hget.
  pose proof (cases_of key st1 Hc1) as Hget1. fold o in Hget1.
  assert (Hsame : self st1 = self st /\ heap st1 = heap st).
  { unfold st1.
    destruct (norm_index 1449 key) as [i|]; [|rewrite Hget; auto].
    destruct (dataset (self st) !! i) as [[a|]|]; [| |contradiction].
    - rewrite Hget. auto.
    - cbv zeta in Hget.
      destruct (outcome (assemble fs o (Z.of_nat i)));
        rewrite Hget in Hret |- *; [discriminate|auto]. }
  destruct Hsame as [Hself Hheap].
  split; [exact Hself|]. split; [exact Hheap|]. split; [exact Hlog|].
  rewrite Hself in Hget1.
  destruct (norm_index 1449 key) as [i|].
  - destruct (dataset (self st) !! i) as [[a|]|]; [| |contradiction].
    + rewrite Hget in Hret. discriminate.
    + cbv zeta in Hget, Hget1.
      destruct (outcome (assemble fs o (Z.of_nat i))) as [d|e'];
        rewrite Hget in Hret; [discriminate|].
      rewrite Hget1. exact Hret.
  - rewrite Hget in Hret. rewrite Hget1. exact Hret.
Qed.

Lemma later_logs (st st' : state) :
  consistent fs o st -> later fs st st' -> log st `prefix_of` log st'.
Proof.
  intros Hc. induction 1 as [|st' key Hl IH]; [reflexivity|].
  pose proof (later_consistent_of st st' Hc Hl) as Hc'. fold o in Hc'.
  etransitivity; [exact IH|]. now apply getitem_logs.
Qed.

(** X13.  Whatever calls follow, the cache keeps 1449 slots, a filled slot keeps
    the address it holds, a record on the heap stays where it is and as it
    is, and the log is only added to. *)
Theorem cache_and_heap_only_grow (st st' : state) :
  reachable fs o st ->
  later fs st st' ->
  length (dataset (self st')) = 1449%nat /\
  (forall i a, dataset (self st) !! i = Some (Some a) ->
               dataset (self st') !! i = Some (Some a)) /\
  (forall a d, heap st !! a = Some d -> heap st' !! a = Some d) /\
  heap st `prefix_of` heap st' /\
  log st `prefix_of` log st'.
Proof.
  intros Hreach Hlater.
  pose proof (consistent_of st Hreach) as Hc. fold o in Hc.
  pose proof (later_consistent_of st st' Hc Hlater) as Hc'. fold o in Hc'.
  destruct (later_grows_of st st' Hc Hlater) as [Hheap Hslots].
  split; [exact (length_dataset_of st' Hc')|].
  split; [exact Hslots|]. split; [|split; [exact Hheap|now apply later_logs]].
  intros a d Hd. destruct Hheap as [rest ->]. now apply lookup_app_l_Some.
Qed.

(** X14.  The record of a scene is the same whenever and however it is asked
    for: two calls that return, made at any two moments of a run with
    ordinals that stand for the same scene, return records of equal value
    (with or without caching, whatever happens in between). *)
Theorem same_scene_same_record
    (key1 key2 : Z) (st st2 : state) (a1 a2 : nat) :
  reachable fs o st ->
  (__getitem__ fs key1 st).1 = Ok a1 ->
  later fs (__getitem__ fs key1 st).2 st2 ->
  (__getitem__ fs key2 st2).1 = Ok a2 ->
  norm_index 1449 key1 = norm_index 1449 key2 ->
  exists d,
    heap (__getitem__ fs key2 st2).2 !! a1 = Some d /\
    heap (__getitem__ fs key2 st2).2 !! a2 = Some d.
Proof.
  intros Hreach Hret1 Hlater Hret2 Hsame.
  pose proof (consistent_of st Hreach) as Hc. fold o in Hc.
  pose proof (step_of key1 st Hc) as Hc1. fold o in Hc1.
  pose proof (later_consistent_of _ st2 Hc1 Hlater) as Hc2. fold o in Hc2.
  destruct (returns_of key1 st a1 Hc Hret1) as (i1 & d1 & Hn1 & Hd1 & Hrun1).
  destruct (returns_of key2 st2 a2 Hc2 Hret2) as (i2 & d2 & Hn2 & Hd2 & Hrun2).
  fold o in Hrun1, Hrun2.
  assert (i2 = i1) by congruence. subst i2.
  assert (d2 = d1) by congruence. subst d2.
  exists d1. split; [|exact Hd2].
  destruct (later_grows_of _ st2 Hc1 Hlater) as [[rest Hrest] _].
  destruct (later_grows_of st2 _ Hc2 (later_get fs st2 st2 key2 (later_now fs st2)))
    as [[rest' Hrest'] _].
  rewrite Hrest', Hrest, <- app_assoc. now apply lookup_app_l_Some.
Qed.

(** X10.  A record that is returned has as many view directions as vanishing
    points, at least one of each; it has one group of segments for every row
    of the scene's labelled_lines file that is not blank, whether or not that
    is the number of vanishing points; and every group has between one and
    four segments. *)
Theorem record_arrays_line_up (key : Z) (st : state) (a : nat) :
  reachable fs o st ->
  (__getitem__ fs key st).1 = Ok a ->
  exists d lines_path lines_file,
    heap (__getitem__ fs key st).2 !! a = Some d /\
    length (VDs d) = length (VPs d) /\
    (1 <= length (VPs d))%nat /\
    Py.getitem (labelled_line_files o) (id d) = Ok lines_path /\
    fs lines_path = Some lines_file /\
    length (labelled_lines d) = length (Csv.DictReader lines_file) /\
    Forall (fun group => (1 <= length group <= 4)%nat) (labelled_lines d).
Proof.
  intros Hreach Hret.
  pose proof (consistent_of st Hreach) as Hc. fold o in Hc.
  destruct (returns_of key st a Hc Hret) as (i & d & _ & Hd & Hrun).
  fold o in Hrun.
  pose proof (assemble_id _ _ _ _ Hrun) as Hid.
  destruct (rows_of _ _ Hrun)
    as (vps_path & header & rows & _ & _ & Hne & Hl1 & Hl2 & _).
  apply assemble_ok in Hrun
    as (lines_path & lines_file & _ & _ & _ & Hpath & Hfile & Hread & _).
  apply read_labelled_lines_ok in Hread.
  exists d, lines_path, lines_file. rewrite Hid.
  split; [exact Hd|]. split; [congruence|]. split.
  { rewrite Hl1. destruct rows; [congruence|simpl; lia]. }
  split; [exact Hpath|]. split; [exact Hfile|].
  split; [symmetry; exact (Forall2_length _ _ _ Hread)|].
  apply Forall_forall. intros group Hin.
  apply list_elem_of_lookup in Hin as [j Hj].
  destruct (Forall2_lookup_r _ _ _ _ _ Hread Hj) as (line & _ & Hline).
  apply read_line_ok in Hline as (Hlen & _). exact Hlen.
Qed.

(** X7.  A vps file without a data row (no row at all, or the header alone)
    cannot be read: stacking no point raises, whatever the header and the
    matrix; a call for such a scene raises, returns no record and leaves the
    object and the heap alone. *)
Theorem scene_without_vanishing_points_raises :
  (forall (M : mat3) (csv_file : Csv.table),
     (length csv_file <= 1)%nat ->
     read_vps M csv_file
     = Raise (ValueError "need at least one array to concatenate")) /\
  (forall (key : Z) (st : state) (i : nat) (path : string)
          (csv_file : Csv.table),
     reachable fs o st ->
     norm_index 1449 key = Some i ->
     dataset (self st) !! i = Some None ->
     Py.getitem (vps_files o) (Z.of_nat i) = Ok path ->
     fs path = Some csv_file ->
     (length csv_file <= 1)%nat ->
     let st1 := (__getitem__ fs key st).2 in
     (exists e, (__getitem__ fs key st).1 = Raise e) /\
     self st1 = self st /\ heap st1 = heap st).
Proof.
  assert (Hread : forall (M : mat3) (csv_file : Csv.table),
            (length csv_file <= 1)%nat ->
            read_vps M csv_file
            = Raise (ValueError "need at least one array to concatenate")).
  { intros M [|header [|row rows]] Hlen; [reflexivity|reflexivity|].
    simpl in Hlen. lia. }
  split; [exact Hread|].
  intros key st i path csv_file Hreach Hn Hslot Hpath Hfile Hlen st1.
  pose proof (consistent_of st Hreach) as Hc. fold o in Hc.
  assert (Hfail : is_ok (outcome (assemble fs o (Z.of_nat i))) = false).
  { apply (bad_file_of (Z.of_nat i) path csv_file
             (ValueError "need at least one array to concatenate")).
    right. split; [exact Hpath|]. split; [exact Hfile|]. now apply Hread. }
  pose proof (cases_of key st Hc) as Hget. fold o in Hget.
  rewrite Hn, Hslot in Hget. cbv zeta in Hget.
  destruct (outcome (assemble fs o (Z.of_nat i))) as [d|e]; [discriminate|].
  unfold st1. rewrite Hget. cbn [fst snd self heap]. eauto.
Qed.

(** X12.  A call fails as early as it can.  If the archive lacks the scene, the
    call raises [IndexError] having read the archive once and opened no file.
    If the labelled_lines file of the scene is not read (and the archive, if
    any, has the scene), the call raises the exception of that file having
    opened it and nothing after it: the vps file is not opened and the depth
    plane is not read. *)
Theorem call_fails_before_the_next_file
    (key : Z) (st : state) (i : nat) :
  reachable fs o st ->
  norm_index 1449 key = Some i ->
  dataset (self st) !! i = Some None ->
  (forall mat,
     mat_file = Some mat ->
     is_ok (Py.getitem (images mat) (Z.of_nat i)) = false ->
     __getitem__ fs key st
     = (Raise IndexError,
        {| self := self st; heap := heap st;
           log := log st ++ [LoadImage (Z.of_nat i)] |})) /\
  (forall path csv_file e,
     (forall mat, mat_file = Some mat ->
                  is_ok (Py.getitem (images mat) (Z.of_nat i)) = true) ->
     Py.getitem (labelled_line_files o) (Z.of_nat i) = Ok path ->
     fs path = Some csv_file ->
     read_labelled_lines path csv_file = Raise e ->
     __getitem__ fs key st
     = (Raise e,
        {| self := self st; heap := heap st;
           log := log st
                  ++ match mat_file with
                     | Some _ => [LoadImage (Z.of_nat i)]
                     | None => []
                     end
                  ++ [OpenFile path] |})).
Proof.
  intros Hreach Hn Hslot.
  pose proof (consistent_of st Hreach) as Hc. fold o in Hc.
  pose proof (cases_of key st Hc) as Hget. fold o in Hget.
  rewrite Hn, Hslot in Hget. cbv zeta in Hget.
  split.
  - intros mat Hmat Himg.
    assert (Hrun : assemble fs o (Z.of_nat i)
                   = Traced [LoadImage (Z.of_nat i)] (Raise IndexError)).
    { unfold assemble. change (data_mat o) with mat_file. rewrite Hmat.
      destruct (getitem (images mat) (Z.of_nat i)) as [im|e] eqn:E;
        [discriminate|].
      apply getitem_raise in E as ->. reflexivity. }
    rewrite Hrun in Hget. exact Hget.
  - intros path csv_file e Himg Hpath Hfile Hread.
    assert (Hrun : assemble fs o (Z.of_nat i)
                   = Traced (match mat_file with
                             | Some _ => [LoadImage (Z.of_nat i)]
                             | None => []
                             end ++ [OpenFile path]) (Raise e)).
    { unfold assemble, open. change (data_mat o) with mat_file.
      remember (labelled_line_files o) as files eqn:Hfiles.
      clear Hget Hc Hreach Hslot Hfiles.
      destruct mat_file as [mat|].
      - specialize (Himg mat eq_refl).
        destruct (getitem (images mat) (Z.of_nat i)) as [im|] eqn:E;
          [|discriminate].
        unfold mbind, traced_bind, traced_then, lift, emit, mret, traced_ret.
        simpl. rewrite Hpath. simpl. rewrite Hfile. simpl.
        rewrite Hread. reflexivity.
      - unfold mbind, traced_bind, traced_then, lift, emit, mret, traced_ret.
        simpl. rewrite Hpath. simpl. rewrite Hfile. simpl.
        rewrite Hread. reflexivity. }
    rewrite Hrun in Hget. cbn [outcome events] in Hget. exact Hget.
Qed.


End MoreCalls.

(* ------------------------------------------------------------------------- *)
(** ** The script at the end of [nyu.py] *)
(* ------------------------------------------------------------------------- *)

Section TheScript.
Import Nyu.
Variable fs : string -> option Csv.table.
Variable plot : Z -> script -> result unit * script.
Variable totals : script -> result unit * script.
Variables glob_vps glob_lines : list string.
Variable mat_file : option Mat.

Let o : obj := __init__ glob_vps glob_lines true mat_file true.

Local Abbreviation consistent_of :=
  (reachable_consistent fs glob_vps glob_lines true mat_file true).
Local Abbreviation cases_of :=
  (getitem_cases fs glob_vps glob_lines true mat_file true).
Local Abbreviation step_of :=
  (consistent_step fs glob_vps glob_lines true mat_file true).
Local Abbreviation returns_of :=
  (getitem_returns fs glob_vps glob_lines true mat_file true).

Lemma range_cons (lo hi : Z) : lo < hi -> range lo hi = lo :: range (lo + 1) hi.
Proof.
  intros H. unfold range.
  replace (Z.to_nat (hi - lo)) with (S (Z.to_nat (hi - (lo + 1)))) by lia.
  rewrite <- cons_seq, <- fmap_S_seq. cbn [map]. f_equal; [lia|].
  rewrite map_map. apply map_ext. intros i. lia.
Qed.

Lemma len_new_object : __len__ o = 1449.
Proof.
  unfold __len__, o, __init__; cbn [dataset].
  rewrite length_map, length_range. reflexivity.
Qed.

(** [dataset[idx][key]] when the call returns. *)
Lemma item_returns (idx : Z) (key : string) (s : script) (a : nat) :
  consistent fs o (data s) ->
  (__getitem__ fs idx (data s)).1 = Ok a ->
  exists d,
    heap (__getitem__ fs idx (data s)).2 !! a = Some d /\
    item fs idx key s
    = (if bool_decide (key ∈ datum_keys) then Ok d else Raise (KeyError key),
       set_data s (__getitem__ fs idx (data s)).2).
Proof.
  intros Hc Hret.
  destruct (returns_of idx (data s) a Hc Hret) as (i & d & _ & Hd & _).
  exists d. split; [exact Hd|]. unfold item.
  destruct (__getitem__ fs idx (data s)) as [r st1]. simpl in *. subst r.
  rewrite Hd. destruct (bool_decide (key ∈ datum_keys)); reflexivity.
Qed.

Lemma item_raises (idx : Z) (key : string) (s : script) (e : exn) :
  (__getitem__ fs idx (data s)).1 = Raise e ->
  item fs idx key s = (Raise e, set_data s (__getitem__ fs idx (data s)).2).
Proof.
  intros Hret. unfold item.
  destruct (__getitem__ fs idx (data s)) as [r st1]. simpl in *. now subst r.
Qed.

(** With caching, a call that returned is answered from the cache the next
    time. *)
Lemma getitem_again (idx : Z) (st : state) (a : nat) :
  consistent fs o st ->
  (__getitem__ fs idx st).1 = Ok a ->
  __getitem__ fs idx (__getitem__ fs idx st).2
  = (Ok a, (__getitem__ fs idx st).2).
Proof.
  intros Hc Hret.
  pose proof (step_of idx st Hc) as Hc1. fold o in Hc1.
  pose proof (cases_of idx st Hc) as Hget. fold o in Hget.
  pose proof (cases_of idx (__getitem__ fs idx st).2 Hc1) as Hget1.
  fold o in Hget1.
  pose proof (length_dataset fs glob_vps glob_lines true mat_file true st Hc)
    as Hlen.
  destruct (norm_index 1449 idx) as [i|] eqn:Hn;
    [|rewrite Hget in Hret; discriminate].
  pose proof (norm_index_lt _ _ _ Hn) as Hi.
  destruct (dataset (self st) !! i) as [[a'|]|] eqn:Hslot; [| |contradiction].
  - rewrite Hget in Hret, Hget1 |- *. injection Hret as <-.
    cbn [snd] in *. now rewrite Hslot in Hget1.
  - cbv zeta in Hget.
    destruct (outcome (assemble fs o (Z.of_nat i))) as [d|e];
      rewrite Hget in Hret, Hget1 |- *; [|discriminate].
    injection Hret as <-. cbn [snd self dataset set_dataset keep_in_mem o __init__] in *.
    rewrite list_lookup_insert_eq in Hget1 by lia. exact Hget1.
Qed.

(** The loop body never finishes, and never reaches the drawing: it raises
    what the call for the scene raises, or else the [KeyError] of the key
    ["line_segments"], which no record has, after one printed line. *)
Lemma iteration_raises (idx : Z) (s : script) :
  consistent fs o (data s) ->
  let first := __getitem__ fs idx (data s) in
  (forall e, first.1 = Raise e ->
             iteration fs plot idx s = (Raise e, set_data s first.2)) /\
  (forall a, first.1 = Ok a ->
     exists d,
       heap first.2 !! a = Some d /\
       iteration fs plot idx s
       = (Raise (KeyError "line_segments"),
          {| data := first.2;
             max_num_vp := if (max_num_vp s <? length (VPs d))%nat
                           then length (VPs d) else max_num_vp s;
             all_num_vps := all_num_vps s ++ [length (VPs d)];
             stdout := stdout s ++ [Progress idx (length (VPs d))] |})).
Proof.
  intros Hc first. split.
  - intros e Hret. unfold iteration.
    now rewrite (item_raises idx "VPs" s e Hret).
  - intros a Hret.
    destruct (item_returns idx "VPs" s a Hc Hret) as (d & Hd & Hitem).
    exists d. split; [exact Hd|].
    unfold iteration. rewrite Hitem.
    rewrite bool_decide_eq_true_2 by (vm_compute; repeat constructor).
    cbv zeta. cbn [data set_data max_num_vp all_num_vps stdout].
    set (s2 := {| data := (__getitem__ fs idx (data s)).2;
                  max_num_vp := _; all_num_vps := _; stdout := _ |}).
    pose proof (step_of idx (data s) Hc) as Hc1. fold o in Hc1.
    pose proof (getitem_again idx (data s) a Hc Hret) as Hagain.
    assert (Hret2 : (__getitem__ fs idx (data s2)).1 = Ok a)
      by (cbn [data s2]; now rewrite Hagain).
    destruct (item_returns idx "line_segments" s2 a Hc1 Hret2)
      as (d2 & Hd2 & Hitem2).
    rewrite Hitem2.
    rewrite bool_decide_eq_false_2.
    + cbn [data s2]. rewrite Hagain. reflexivity.
    + intros Hin. vm_compute in Hin.
      repeat (apply elem_of_cons in Hin as [Hin|Hin]; [discriminate|]).
      inversion Hin.
Qed.

(** X15.  The script never gets past the first scene.  It raises whatever the call
    for scene 0 raises; and if that call returns a record, it prints the one
    line for scene 0 and then raises [KeyError] for the key
    ["line_segments"], which the record does not have.  Nothing is ever
    drawn and the totals are never printed: the outcome is the same whatever
    these two parts would do. *)
Theorem script_stops_at_the_first_scene :
  let run := main fs plot totals glob_vps glob_lines mat_file in
  let first := __getitem__ fs 0 (start o) in
  let hint := match mat_file with None => [Hint] | Some _ => [] end in
  (exists e, run.1 = Raise e) /\
  (forall e, first.1 = Raise e ->
             run.1 = Raise e /\ stdout run.2 = hint /\ all_num_vps run.2 = []) /\
  (forall a, first.1 = Ok a ->
     run.1 = Raise (KeyError "line_segments") /\
     data run.2 = first.2 /\
     exists d,
       heap first.2 !! a = Some d /\
       stdout run.2 = hint ++ [Progress 0 (length (VPs d))] /\
       all_num_vps run.2 = [length (VPs d)] /\
       max_num_vp run.2 = length (VPs d)).
Proof.
  intros run first hint.
  set (s0 := {| data := start o; max_num_vp := 0%nat; all_num_vps := [];
                stdout := hint |}).
  assert (Hc : consistent fs o (data s0))
    by (apply consistent_of, reach_start).
  assert (Hrun : run = match iteration fs plot 0 s0 with
                       | (Raise e, s') => (Raise e, s')
                       | (Ok _, s') =>
                           match for_range fs plot (range 1 1449) s' with
                           | (Raise e, s'') => (Raise e, s'')
                           | (Ok _, s'') => totals s''
                           end
                       end).
  { unfold run, main. fold o. rewrite len_new_object.
    rewrite (range_cons 0 1449) by lia. cbn [for_range]. fold hint s0.
    destruct (iteration fs plot 0 s0) as [[u|e] s']; reflexivity. }
  destruct (iteration_raises 0 s0 Hc) as [Hraise Hok].
  change (__getitem__ fs 0 (data s0)) with first in Hraise, Hok.
  assert (Hsecond : forall e, first.1 = Raise e ->
            run.1 = Raise e /\ stdout run.2 = hint /\ all_num_vps run.2 = []).
  { intros e He. rewrite Hrun, (Hraise e He). auto. }
  assert (Hthird : forall a, first.1 = Ok a ->
            run.1 = Raise (KeyError "line_segments") /\
            data run.2 = first.2 /\
            exists d,
              heap first.2 !! a = Some d /\
              stdout run.2 = hint ++ [Progress 0 (length (VPs d))] /\
              all_num_vps run.2 = [length (VPs d)] /\
              max_num_vp run.2 = length (VPs d)).
  { intros a Ha. destruct (Hok a Ha) as (d & Hd & Hit).
    rewrite Hrun, Hit. cbn [fst snd data stdout all_num_vps max_num_vp s0].
    split; [reflexivity|]. split; [reflexivity|].
    exists d. split; [exact Hd|]. split; [reflexivity|]. split; [reflexivity|].
    destruct (length (VPs d)); reflexivity. }
  split; [|split; [exact Hsecond|exact Hthird]].
  destruct (first.1) as [a|e] eqn:E.
  - destruct (Hthird a eq_refl) as [H _]. eauto.
  - destruct (Hsecond e eq_refl) as [H _]. eauto.
Qed.

End TheScript.

(* ------------------------------------------------------------------------- *)
(** ** These theorems at work on the small data directory *)
(* ------------------------------------------------------------------------- *)

(** [rgb2gray] on the 1 x 2 image with an alpha channel. *)
Lemma rgb2gray_weighs_the_first_three_channels_demo :
  exists gray,
    Nyu.rgb2gray Samples.rgba = Ok gray /\
    length gray = length Samples.rgba.
Proof.
  destruct (Nyu.rgb2gray Samples.rgba) as [gray|] eqn:E;
    [|vm_compute in E; discriminate].
  exists gray. split; [reflexivity|].
  exact (proj1 (rgb2gray_weighs_the_first_three_channels _ _ E)).
Defined.


(** The good vps file read under other names, identifiers and with a further
    column. *)
Lemma read_vps_looks_at_two_columns_demo :
  read_vps (inv K) Demo.vps_table = read_vps (inv K) Samples.vps_table_renamed.
Proof.
  apply (read_vps_looks_at_two_columns (inv K)).
  repeat constructor.
Defined.

(** The labelled_lines file whose row starts with an empty slot. *)
Lemma empty_first_slot_raises_demo :
  read_labelled_lines "data/labelled_lines_0000.csv" Samples.lines_empty_slot
  = Raise (ValueError "need at least one array to concatenate").
Proof.
  refine (proj2 (empty_first_slot_raises "data/labelled_lines_0000.csv"
                   Samples.lines_empty_slot []
                   (Csv.dict_of_row Demo.lines_header
                      [""; "2"; "3"; "4"; "5"; "6"; "7"; "8";
                       ""; ""; ""; ""; ""; ""; ""; ""]) [] _ _ _)).
  - vm_compute. reflexivity.
  - constructor.
  - vm_compute. reflexivity.
Defined.

(** The file without the column [line1_x1] and the row that stops after
    three fields. *)
Lemma slot_fields_are_found_by_column_name_demo :
  Csv.getitem (Csv.dict_of_row Demo.lines_header ["1"; "2"; "3"]) "line1_x2"
  = Ok (Some "3") /\
  read_slot "p" (Csv.dict_of_row ["line1_y1"; "line1_x2"; "line1_y2"]
                   ["2"; "3"; "4"]) 1
  = Raise (KeyError "line1_x1") /\
  read_slot "p" (Csv.dict_of_row Demo.lines_header ["1"; "2"; "3"]) 2
  = Raise TypeError.
Proof.
  split; [|split].
  - apply (proj1 (slot_fields_are_found_by_column_name "p" Demo.lines_header
                    ["1"; "2"; "3"] 1)) with (p := 2%nat).
    + apply (bool_decide_unpack (NoDup Demo.lines_header)).
      vm_compute. exact I.
    + reflexivity.
    + reflexivity.
  - apply (proj1 (proj2 (slot_fields_are_found_by_column_name "p"
                           ["line1_y1"; "line1_x2"; "line1_y2"]
                           ["2"; "3"; "4"] 1))).
    apply (bool_decide_unpack
             (slot_key 1 "_x1" ∉ ["line1_y1"; "line1_x2"; "line1_y2"])).
    vm_compute. exact I.
  - apply (proj2 (proj2 (slot_fields_are_found_by_column_name "p"
                           Demo.lines_header ["1"; "2"; "3"] 2)) 4%nat).
    + reflexivity.
    + simpl. lia.
Defined.

(** The call for scene 1, whose vps file is bad, and the same call again. *)
Lemma raising_call_keeps_nothing_demo :
  reachable Demo.fs Demo.cached (start Demo.cached) /\
  (__getitem__ Demo.fs 1 (start Demo.cached)).1
  = Raise (ValueError (float_error "abc")) /\
  heap (__getitem__ Demo.fs 1 (start Demo.cached)).2 = [] /\
  (__getitem__ Demo.fs 1 (__getitem__ Demo.fs 1 (start Demo.cached)).2).1
  = Raise (ValueError (float_error "abc")).
Proof.
  assert (Hreach : reachable Demo.fs Demo.cached (start Demo.cached))
    by apply reach_start.
  assert (Hret : (__getitem__ Demo.fs 1 (start Demo.cached)).1
                 = Raise (ValueError (float_error "abc")))
    by (vm_compute; reflexivity).
  split; [exact Hreach|]. split; [exact Hret|].
  destruct (raising_call_keeps_nothing Demo.fs Demo.all_vps Demo.all_lines
              true None true 1 (start Demo.cached) _ Hreach Hret)
    as (_ & Hheap & _ & Hagain).
  split; [exact Hheap|exact Hagain].
Defined.

(** The first state and the state after the call for scene 0. *)
Lemma cache_and_heap_only_grow_demo :
  reachable Demo.fs Demo.cached (start Demo.cached) /\
  later Demo.fs (start Demo.cached)
        (__getitem__ Demo.fs 0 (start Demo.cached)).2 /\
  length (dataset (self (__getitem__ Demo.fs 0 (start Demo.cached)).2))
  = 1449%nat.
Proof.
  assert (Hreach : reachable Demo.fs Demo.cached (start Demo.cached))
    by apply reach_start.
  assert (Hlater : later Demo.fs (start Demo.cached)
                     (__getitem__ Demo.fs 0 (start Demo.cached)).2)
    by apply later_get, later_now.
  split; [exact Hreach|]. split; [exact Hlater|].
  exact (proj1 (cache_and_heap_only_grow Demo.fs Demo.all_vps Demo.all_lines
                  true None true _ _ Hreach Hlater)).
Defined.

(** Scene 0 asked for as ordinal 0 and then as ordinal -1449, without
    caching. *)
Lemma same_scene_same_record_demo :
  exists d,
    heap (__getitem__ Demo.fs (-1449)
            (__getitem__ Demo.fs 0 (start Demo.uncached)).2).2 !! 0%nat
    = Some d /\
    heap (__getitem__ Demo.fs (-1449)
            (__getitem__ Demo.fs 0 (start Demo.uncached)).2).2 !! 1%nat
    = Some d.
Proof.
  apply (same_scene_same_record Demo.fs Demo.all_vps Demo.all_lines false None
           true 0 (-1449) (start Demo.uncached)
           (__getitem__ Demo.fs 0 (start Demo.uncached)).2 0%nat 1%nat).
  - apply reach_start.
  - vm_compute. reflexivity.
  - apply later_now.
  - vm_compute. reflexivity.
  - reflexivity.
Defined.

(** The record of scene 0 of the small directory. *)
Lemma record_arrays_line_up_demo :
  exists d,
    heap (__getitem__ Demo.fs 0 (start Demo.cached)).2 !! 0%nat = Some d /\
    length (VDs d) = length (VPs d) /\ (1 <= length (VPs d))%nat.
Proof.
  destruct (record_arrays_line_up Demo.fs Demo.all_vps Demo.all_lines true
              None true 0 (start Demo.cached) 0%nat)
    as (d & _ & _ & Hd & Hlen & Hpos & _).
  - apply reach_start.
  - vm_compute. reflexivity.
  - exists d. auto.
Defined.

(** Scene 3 of the directory in which its vps file has the header only. *)
Lemma scene_without_vanishing_points_raises_demo :
  (exists e, (__getitem__ Samples.fs 3 (start Demo.cached)).1 = Raise e) /\
  heap (__getitem__ Samples.fs 3 (start Demo.cached)).2 = [].
Proof.
  destruct (proj2 (scene_without_vanishing_points_raises Samples.fs
                     Demo.all_vps Demo.all_lines true None true)
              3 (start Demo.cached) 3%nat (Demo.vps_name 3) [["id"; "x"; "y"]])
    as (Hraise & _ & Hheap).
  - apply reach_start.
  - reflexivity.
  - vm_compute. reflexivity.
  - vm_compute. reflexivity.
  - vm_compute. reflexivity.
  - simpl. lia.
  - split; [exact Hraise|exact Hheap].
Defined.

(** Scene 1 with the one-scene archive, and scene 2, whose labelled_lines
    file is bad, without an archive. *)
Lemma call_fails_before_the_next_file_demo :
  log (__getitem__ Demo.fs 1 (start Demo.cached_mat)).2 = [LoadImage 1] /\
  log (__getitem__ Demo.fs 2 (start Demo.cached)).2
  = [OpenFile (Demo.lines_name 2)].
Proof.
  split.
  - destruct (call_fails_before_the_next_file Demo.fs Demo.all_vps
                Demo.all_lines true (Some Demo.mat) true 1
                (start Demo.cached_mat) 1%nat) as [Hmiss _].
    + apply reach_start.
    + reflexivity.
    + vm_compute. reflexivity.
    + rewrite (Hmiss Demo.mat eq_refl); [reflexivity|].
      vm_compute. reflexivity.
  - destruct (call_fails_before_the_next_file Demo.fs Demo.all_vps
                Demo.all_lines true None true 2
                (start Demo.cached) 2%nat) as [_ Hlines].
    + apply reach_start.
    + reflexivity.
    + vm_compute. reflexivity.
    + rewrite (Hlines (Demo.lines_name 2) Demo.bad_lines_table
                 (AssertionError (Demo.lines_name 2))).
      * reflexivity.
      * intros mat [=].
      * vm_compute. reflexivity.
      * vm_compute. reflexivity.
      * vm_compute. reflexivity.
Defined.


(** The script on the small directory, without an archive. *)
Lemma script_stops_at_the_first_scene_demo :
  (Nyu.main Demo.fs Samples.no_plot Samples.no_totals Demo.all_vps
     Demo.all_lines None).1
  = Raise (KeyError "line_segments").
Proof.
  destruct (script_stops_at_the_first_scene Demo.fs Samples.no_plot
              Samples.no_totals Demo.all_vps Demo.all_lines None)
    as (_ & _ & Hok).
  refine (proj1 (Hok 0%nat _)).
  vm_compute. reflexivity.
Defined.
